(** * Atomic Habits tracker: the habit entity and its repository

    A shallow embedding of [src/core/AtomicHabits.js] (classes [Habit] and
    [HabitTracker]) together with the properties of the streak, completion,
    analytics and persistence logic.

    Conventions of the embedding.
    - An instant (a JavaScript [Date]) is its time value: the integer number
      of milliseconds since the epoch, a [Z].
    - A calendar-day string ['YYYY-MM-DD'], as produced by
      [toISOString().split('T')[0]], is represented by the number of the UTC
      day it names (days since the epoch).  The two are in bijection over the
      range in which [toISOString] prints four-digit years, and string
      equality of two such strings is equality of the day numbers.
    - The clock ([new Date()], [Date.now()]) is an explicit argument [now];
      the readings taken inside one call are taken to be the same instant.
    - A JavaScript number that results from a division is a [JsNumber.number]:
      an exact rational, or one of the IEEE special values.  Rounding of
      finite values and the sign of zero are not represented.
    - The host's zone has one offset from UTC at every instant (no
      daylight-saving transition), and instants are taken within the range
      of [Date]; the statements on [getCompletionRate] that depend on either
      say so.
    - A habit is a value: its completion log is its own.  In the source the
      log is an array that the constructor takes over from its caller, so two
      habits constructed from one array share it; what is stated about one
      habit of a tracker after a change to another is restricted to what
      holds with or without sharing. *)

From Stdlib Require Import ZArith QArith Qreduction Lia List.
From stdpp Require Import base list strings pretty sorting gmap.

Local Open Scope Z_scope.

(** ** Dates *)

Module JsDate.

Definition msPerDay : Z := 1000 * 60 * 60 * 24.

(** The range of a [Date]: a time value is at most 8.64e15 ms away from the
    epoch; [TimeClip] turns anything beyond into an Invalid Date. *)
Definition maxTime : Z := 8640000000000000.

(** [Day(t)] and [TimeWithinDay(t)] of ECMAScript. *)
Definition Day (t : Z) : Z := t / msPerDay.
Definition TimeWithinDay (t : Z) : Z := t mod msPerDay.

(** [date.toISOString().split('T')[0]]: the UTC calendar day of [t]. *)
Definition toISODate (t : Z) : Z := Day t.

(** [new Date(dateStr)] for a date-only string: midnight UTC of that day. *)
Definition parseISODate (d : Z) : Z := d * msPerDay.

(** [DateFromTime]: the day of the month (from 1) of a day number in the
    proleptic Gregorian calendar, by the usual era/day-of-era computation. *)
Definition DateFromDay (d : Z) : Z :=
  let s := d + 719468 in
  let era := s / 146097 in
  let doe := s - era * 146097 in
  let yoe := (doe - doe / 1460 + doe / 36524 - doe / 146096) / 365 in
  let doy := doe - (365 * yoe + yoe / 4 - yoe / 100) in
  let mp := (5 * doy + 2) / 153 in
  doy - (153 * mp + 2) / 5 + 1.

(** [getDate] and [setDate] work on local time. *)
Section Local.
(** The offset of the host's zone from UTC in milliseconds, taken to be
    the same at every instant (no daylight-saving transition). *)
Variable LocalTZA : Z.

Definition LocalTime (t : Z) : Z := t + LocalTZA.
Definition UTC (t : Z) : Z := t - LocalTZA.

(** [getDate()]: [DateFromTime(LocalTime(t))]. *)
Definition getDate (t : Z) : Z := DateFromDay (Day (LocalTime t)).

(** [setDate(dt)]: [UTC(MakeDate(MakeDay(year, month, dt),
    TimeWithinDay(local)))], where [MakeDay] counts [dt - 1] days from the
    first day of the month, also when [dt] is outside the month.  The final
    [TimeClip] is not represented: the result stands for a [Date] only while
    it lies within [maxTime] of the epoch, and the statements that depend on
    it say so. *)
Definition setDate (t dt : Z) : Z :=
  let local := LocalTime t in
  let firstOfMonth := Day local - (DateFromDay (Day local) - 1) in
  UTC ((firstOfMonth + dt - 1) * msPerDay + TimeWithinDay local).
End Local.

End JsDate.

(** ** Numbers produced by division *)

Module JsNumber.

(** Finite values are kept in lowest terms, so that [=] on [number] is
    numeric equality. *)
Inductive number :=
| Finite (q : Q)
| PosInfinity
| NegInfinity
| NaN.

Definition of_Z (n : Z) : number := Finite (inject_Z n).

Definition div (x y : number) : number :=
  match x, y with
  | Finite p, Finite q =>
      if Qeq_bool q 0
      then (if Qeq_bool p 0 then NaN
            else if Qle_bool 0 p then PosInfinity else NegInfinity)
      else Finite (Qred (p / q))
  | Finite _, (PosInfinity | NegInfinity) => Finite 0
  | PosInfinity, Finite q => if Qle_bool 0 q then PosInfinity else NegInfinity
  | NegInfinity, Finite q => if Qle_bool 0 q then NegInfinity else PosInfinity
  | _, _ => NaN
  end.

Definition mul (x y : number) : number :=
  match x, y with
  | Finite p, Finite q => Finite (Qred (p * q))
  | Finite p, PosInfinity | PosInfinity, Finite p =>
      if Qeq_bool p 0 then NaN
      else if Qle_bool 0 p then PosInfinity else NegInfinity
  | Finite p, NegInfinity | NegInfinity, Finite p =>
      if Qeq_bool p 0 then NaN
      else if Qle_bool 0 p then NegInfinity else PosInfinity
  | PosInfinity, PosInfinity | NegInfinity, NegInfinity => PosInfinity
  | PosInfinity, NegInfinity | NegInfinity, PosInfinity => NegInfinity
  | _, _ => NaN
  end.

(** [x === y] on numbers: [NaN] equals nothing. *)
Definition strictEq (x y : number) : bool :=
  match x, y with
  | Finite p, Finite q => Qeq_bool p q
  | PosInfinity, PosInfinity | NegInfinity, NegInfinity => true
  | _, _ => false
  end.

End JsNumber.

(** ** The habit entity *)

Module Habit.
Import JsDate.

(** One entry of the completion log, [{date, timestamp, count}]. *)
Record completion := { date : Z; timestamp : Z; count : Z }.

Record t := {
  id : string;
  name : string;
  description : string;
  category : string;
  cue : string;
  craving : string;
  response : string;
  reward : string;
  difficulty : Z;
  frequency : string;
  targetCount : Z;
  streak : Z;
  longestStreak : Z;
  completions : list completion;
  isActive : bool;
  createdAt : Z;
  updatedAt : Z
}.

(** The configuration object of the constructor, and the plain record that
    [toJSON] returns: every property may be absent ([undefined]). *)
Record config := {
  cfg_id : option string;
  cfg_name : option string;
  cfg_description : option string;
  cfg_category : option string;
  cfg_cue : option string;
  cfg_craving : option string;
  cfg_response : option string;
  cfg_reward : option string;
  cfg_difficulty : option Z;
  cfg_frequency : option string;
  cfg_targetCount : option Z;
  cfg_streak : option Z;
  cfg_longestStreak : option Z;
  cfg_completions : option (list completion);
  cfg_isActive : option bool;
  cfg_createdAt : option Z;
  cfg_updatedAt : option Z
}.

(** The empty configuration object [{}]. *)
Definition no_config : config :=
  Build_config None None None None None None None None None None None None
               None None None None None.

(** ['habit_' + Date.now() + '_' + Math.random().toString(36).substr(2, 9)];
    [rnd] is the random suffix. *)
Definition generateId (now : Z) (rnd : string) : string :=
  "habit_" +:+ pretty now +:+ "_" +:+ rnd.

(** The constructor: destructuring defaults replace absent properties, and
    a falsy [id] (absent, [null] or the empty string) is replaced by a
    generated one.  Nothing is recomputed or validated. *)
Definition new (now : Z) (rnd : string) (c : config) : t :=
  {| id := match cfg_id c with
           | Some s => if decide (s = "") then generateId now rnd else s
           | None => generateId now rnd
           end;
     name := default "" (cfg_name c);
     description := default "" (cfg_description c);
     category := default "general" (cfg_category c);
     cue := default "" (cfg_cue c);
     craving := default "" (cfg_craving c);
     response := default "" (cfg_response c);
     reward := default "" (cfg_reward c);
     difficulty := default 1 (cfg_difficulty c);
     frequency := default "daily" (cfg_frequency c);
     targetCount := default 1 (cfg_targetCount c);
     streak := default 0 (cfg_streak c);
     longestStreak := default 0 (cfg_longestStreak c);
     completions := default [] (cfg_completions c);
     isActive := default true (cfg_isActive c);
     createdAt := default now (cfg_createdAt c);
     updatedAt := default now (cfg_updatedAt c) |}.

(** Field updates ([this.f = v]). *)
Definition set_completions (cs : list completion) (h : t) : t :=
  Build_t (id h) (name h) (description h) (category h) (cue h) (craving h)
          (response h) (reward h) (difficulty h) (frequency h)
          (targetCount h) (streak h) (longestStreak h) cs (isActive h)
          (createdAt h) (updatedAt h).

Definition set_streak (s : Z) (h : t) : t :=
  Build_t (id h) (name h) (description h) (category h) (cue h) (craving h)
          (response h) (reward h) (difficulty h) (frequency h)
          (targetCount h) s (longestStreak h) (completions h) (isActive h)
          (createdAt h) (updatedAt h).

Definition set_longestStreak (s : Z) (h : t) : t :=
  Build_t (id h) (name h) (description h) (category h) (cue h) (craving h)
          (response h) (reward h) (difficulty h) (frequency h)
          (targetCount h) (streak h) s (completions h) (isActive h)
          (createdAt h) (updatedAt h).

Definition set_updatedAt (u : Z) (h : t) : t :=
  Build_t (id h) (name h) (description h) (category h) (cue h) (craving h)
          (response h) (reward h) (difficulty h) (frequency h)
          (targetCount h) (streak h) (longestStreak h) (completions h)
          (isActive h) (createdAt h) u.

Definition set_cue (v : string) (h : t) : t :=
  Build_t (id h) (name h) (description h) (category h) v (craving h)
          (response h) (reward h) (difficulty h) (frequency h)
          (targetCount h) (streak h) (longestStreak h) (completions h)
          (isActive h) (createdAt h) (updatedAt h).

Definition set_craving (v : string) (h : t) : t :=
  Build_t (id h) (name h) (description h) (category h) (cue h) v
          (response h) (reward h) (difficulty h) (frequency h)
          (targetCount h) (streak h) (longestStreak h) (completions h)
          (isActive h) (createdAt h) (updatedAt h).

Definition set_response (v : string) (h : t) : t :=
  Build_t (id h) (name h) (description h) (category h) (cue h) (craving h)
          v (reward h) (difficulty h) (frequency h)
          (targetCount h) (streak h) (longestStreak h) (completions h)
          (isActive h) (createdAt h) (updatedAt h).

Definition set_reward (v : string) (h : t) : t :=
  Build_t (id h) (name h) (description h) (category h) (cue h) (craving h)
          (response h) v (difficulty h) (frequency h)
          (targetCount h) (streak h) (longestStreak h) (completions h)
          (isActive h) (createdAt h) (updatedAt h).

(** [setCue], [setCraving], [setResponse], [setReward]: each stores its
    argument, bumps [updatedAt] and returns [this]. *)
Definition setCue (now : Z) (v : string) (h : t) : t :=
  set_updatedAt now (set_cue v h).
Definition setCraving (now : Z) (v : string) (h : t) : t :=
  set_updatedAt now (set_craving v h).
Definition setResponse (now : Z) (v : string) (h : t) : t :=
  set_updatedAt now (set_response v h).
Definition setReward (now : Z) (v : string) (h : t) : t :=
  set_updatedAt now (set_reward v h).

(** [isCompletedToday(date)]: some record carries the day of [dt]. *)
Definition isCompletedToday (dt : Z) (h : t) : bool :=
  let dateStr := toISODate dt in
  existsb (fun c => date c =? dateStr) (completions h).

(** The comparator of the sort, [new Date(a.date) - new Date(b.date)]. *)
Definition compareFn (a b : completion) : Z :=
  parseISODate (date a) - parseISODate (date b).

(** [Array.prototype.sort] is stable; all stable sorts compute the same
    array, here by insertion. *)
Fixpoint insert (c : completion) (l : list completion) : list completion :=
  match l with
  | [] => [c]
  | x :: r => if compareFn c x <=? 0 then c :: x :: r else x :: insert c r
  end.

Definition sort (l : list completion) : list completion :=
  fold_right insert [] l.

(** The loop [for (i = length - 2; i >= 0; i--)] of [updateStreak], with
    [n = i + 1] iterations still to run.  The two indices read are always
    in range. *)
Fixpoint streakLoop (sorted : list completion) (n : nat) (tempStreak : Z) : Z :=
  match n with
  | O => tempStreak
  | S i =>
      match sorted !! S i, sorted !! i with
      | Some cur, Some prev =>
          let current := parseISODate (date cur) in
          let previous := parseISODate (date prev) in
          let diff := (current - previous) / msPerDay in
          if diff =? 1 then streakLoop sorted i (tempStreak + 1)
          else tempStreak
      | _, _ => tempStreak
      end
  end.

(** [updateStreak()].  The sort is in place, so [this.completions] is left
    sorted as well. *)
Definition updateStreak (now : Z) (h : t) : t :=
  match completions h with
  | [] => set_streak 0 h
  | _ :: _ =>
      let sortedCompletions := sort (completions h) in
      let today := now in
      match last sortedCompletions with
      | None => set_completions sortedCompletions h
      | Some lastRecord =>
          let lastCompletion := parseISODate (date lastRecord) in
          let daysDiff := (today - lastCompletion) / msPerDay in
          let currentStreak :=
            if daysDiff <=? 1
            then streakLoop sortedCompletions
                            (length sortedCompletions - 1) 1
            else 0 in
          set_longestStreak (Z.max (longestStreak h) currentStreak)
            (set_streak currentStreak (set_completions sortedCompletions h))
      end
  end.

(** [complete(date)]: the new state and the returned boolean. *)
Definition complete (now dt : Z) (h : t) : t * bool :=
  let dateStr := toISODate dt in
  if isCompletedToday dt h then (h, false)
  else
    let pushed :=
      set_completions
        (completions h ++ [{| date := dateStr; timestamp := dt; count := 1 |}])
        h in
    (set_updatedAt now (updateStreak now pushed), true).

(** [getDaysSinceCreation()]. *)
Definition getDaysSinceCreation (now : Z) (h : t) : Z :=
  (now - createdAt h) / msPerDay + 1.

Section Rate.
(** The offset of the host's zone, see [JsDate.setDate]. *)
Variable LocalTZA : Z.

(** The records that [getCompletionRate(days)] keeps.  The start of the
    window is the result of [setDate], within the zone and the range of
    dates that [JsDate.setDate] is meant for: against an Invalid Date
    the source keeps no record at all. *)
Definition completionsInPeriod (now days : Z) (h : t) : list completion :=
  let endDate := now in
  let startDate := setDate LocalTZA now (getDate LocalTZA now - days) in
  List.filter
    (fun c =>
       let completionDate := parseISODate (date c) in
       (startDate <=? completionDate) && (completionDate <=? endDate))
    (completions h).

(** [getCompletionRate(days)]. *)
Definition getCompletionRate (now days : Z) (h : t) : JsNumber.number :=
  JsNumber.mul
    (JsNumber.div
       (JsNumber.of_Z (Z.of_nat (length (completionsInPeriod now days h))))
       (JsNumber.of_Z days))
    (JsNumber.of_Z 100).
End Rate.

(** The object that [getAnalytics()] returns. *)
Module Analytics.
Record t := {
  totalCompletions : Z;
  currentStreak : Z;
  longestStreak : Z;
  completionRate30Days : JsNumber.number;
  completionRate7Days : JsNumber.number;
  averagePerWeek : JsNumber.number;
  difficulty : Z;
  category : string
}.
End Analytics.

(** [getAnalytics()]. *)
Definition getAnalytics (LocalTZA now : Z) (h : t) : Analytics.t :=
  {| Analytics.totalCompletions := Z.of_nat (length (completions h));
     Analytics.currentStreak := streak h;
     Analytics.longestStreak := longestStreak h;
     Analytics.completionRate30Days := getCompletionRate LocalTZA now 30 h;
     Analytics.completionRate7Days := getCompletionRate LocalTZA now 7 h;
     Analytics.averagePerWeek :=
       if 0 <? Z.of_nat (length (completions h))
       then JsNumber.mul
              (JsNumber.div (JsNumber.of_Z (Z.of_nat (length (completions h))))
                            (JsNumber.of_Z (getDaysSinceCreation now h)))
              (JsNumber.of_Z 7)
       else JsNumber.of_Z 0;
     Analytics.difficulty := difficulty h;
     Analytics.category := category h |}.

(** [toJSON()] and [Habit.fromJSON(data)]. *)
Definition toJSON (h : t) : config :=
  {| cfg_id := Some (id h);
     cfg_name := Some (name h);
     cfg_description := Some (description h);
     cfg_category := Some (category h);
     cfg_cue := Some (cue h);
     cfg_craving := Some (craving h);
     cfg_response := Some (response h);
     cfg_reward := Some (reward h);
     cfg_difficulty := Some (difficulty h);
     cfg_frequency := Some (frequency h);
     cfg_targetCount := Some (targetCount h);
     cfg_streak := Some (streak h);
     cfg_longestStreak := Some (longestStreak h);
     cfg_completions := Some (completions h);
     cfg_isActive := Some (isActive h);
     cfg_createdAt := Some (createdAt h);
     cfg_updatedAt := Some (updatedAt h) |}.

Definition fromJSON (now : Z) (rnd : string) (data : config) : t :=
  new now rnd data.

End Habit.

(** ** The repository of habits *)

Module HabitTracker.

(** [habits] is a [Map] from id to habit, kept in insertion order;
    [categories] is a [Set] of labels. *)
Record t := {
  habits : list (string * Habit.t);
  categories : list string
}.

(** The object handed to [JSON.stringify] by [saveToStorage]. *)
Record snapshot := {
  s_habits : list (string * Habit.config);
  s_categories : list string
}.

(** [localStorage] is a map from keys to texts. *)
Definition storageKey : string := "atomicHabitsTracker".

(** [this.habits.get(id)]: [None] is [undefined]. *)
Fixpoint Map_get (id : string) (m : list (string * Habit.t)) : option Habit.t :=
  match m with
  | [] => None
  | (k, h) :: r => if decide (k = id) then Some h else Map_get id r
  end.

(** The entry found by [Map_get] holds a reference to the habit object;
    [Map_put] writes the state the object has after a method call on it
    back into that entry. *)
Fixpoint Map_put (id : string) (h' : Habit.t) (m : list (string * Habit.t))
  : list (string * Habit.t) :=
  match m with
  | [] => []
  | (k, h) :: r =>
      if decide (k = id) then (k, h') :: r else (k, h) :: Map_put id h' r
  end.

(** [this.habits.set(id, h)]: an existing key keeps its place and gets the
    new value, a new key goes to the end. *)
Fixpoint Map_set (id : string) (h' : Habit.t) (m : list (string * Habit.t))
  : list (string * Habit.t) :=
  match m with
  | [] => [(id, h')]
  | (k, h) :: r =>
      if decide (k = id) then (k, h') :: r else (k, h) :: Map_set id h' r
  end.

(** [this.habits.delete(id)]: the map without the key, and whether the key
    was there. *)
Fixpoint Map_delete (id : string) (m : list (string * Habit.t))
  : list (string * Habit.t) :=
  match m with
  | [] => []
  | (k, h) :: r => if decide (k = id) then r else (k, h) :: Map_delete id r
  end.

Definition Map_has (id : string) (m : list (string * Habit.t)) : bool :=
  existsb (fun e => bool_decide (fst e = id)) m.

(** [this.categories.add(category)]. *)
Definition Set_add (category : string) (s : list string) : list string :=
  if existsb (String.eqb category) s then s else s ++ [category].

Definition set_categories (s : list string) (tr : t) : t :=
  {| habits := habits tr; categories := s |}.

Definition set_habits (m : list (string * Habit.t)) (tr : t) : t :=
  {| habits := m; categories := categories tr |}.

Definition getHabit (id : string) (tr : t) : option Habit.t :=
  Map_get id (habits tr).

Definition getAllHabits (tr : t) : list Habit.t := map snd (habits tr).

Definition getActiveHabits (tr : t) : list Habit.t :=
  List.filter Habit.isActive (getAllHabits tr).

(** [getHabitsByCategory(category)]. *)
Definition getHabitsByCategory (category : string) (tr : t) : list Habit.t :=
  List.filter (fun habit => String.eqb (Habit.category habit) category)
              (getAllHabits tr).

(** [getTodaysHabits()]: a copy of the fields of each active habit
    ([{...habit}]) together with the added [isCompletedToday] flag. *)
Definition getTodaysHabits (now : Z) (tr : t) : list (Habit.t * bool) :=
  map (fun habit => (habit, Habit.isCompletedToday now habit))
      (getActiveHabits tr).

(** [getCategories()]. *)
Definition getCategories (tr : t) : list string := categories tr.

(** [{habits: entries.map(([id, habit]) => [id, habit.toJSON()]),
     categories: Array.from(this.categories)}]. *)
Definition snapshotOf (tr : t) : snapshot :=
  {| s_habits := map (fun e => (fst e, Habit.toJSON (snd e))) (habits tr);
     s_categories := categories tr |}.

Section Host.
(** [JSON.stringify] on snapshots, a built-in of the host. *)
Variable JSON_stringify : snapshot -> string.

(** [saveToStorage()]: [setItem] under the fixed key, taken to succeed. *)
Definition saveToStorage (tr : t) (localStorage : gmap string string)
  : gmap string string :=
  <[storageKey := JSON_stringify (snapshotOf tr)]> localStorage.

(** [completeHabit(id, date)]: the tracker and the storage afterwards,
    and the returned boolean.  A habit's log is a value of its own here; in
    the source it is an array that [complete] updates in place, and a
    second habit constructed from the very same array would see the
    update as well.  Statements about the other habits of the tracker are
    restricted to what holds in either case. *)
Definition completeHabit (now : Z) (id : string) (dt : Z)
    (tr : t) (localStorage : gmap string string)
  : t * gmap string string * bool :=
  match getHabit id tr with
  | Some habit =>
      let (habit', ok) := Habit.complete now dt habit in
      let tr' := set_habits (Map_put id habit' (habits tr)) tr in
      if ok then (tr', saveToStorage tr' localStorage, true)
      else (tr', localStorage, false)
  | None => (tr, localStorage, false)
  end.

(** [addHabit(habitData)]: the tracker and the storage afterwards, and the
    habit returned. *)
Definition addHabit (now : Z) (rnd : string) (habitData : Habit.config)
    (tr : t) (localStorage : gmap string string)
  : t * gmap string string * Habit.t :=
  let habit := Habit.new now rnd habitData in
  let tr' := set_habits (Map_set (Habit.id habit) habit (habits tr)) tr in
  (tr', saveToStorage tr' localStorage, habit).

(** [deleteHabit(id)]. *)
Definition deleteHabit (id : string)
    (tr : t) (localStorage : gmap string string)
  : t * gmap string string * bool :=
  let deleted := Map_has id (habits tr) in
  let tr' := set_habits (Map_delete id (habits tr)) tr in
  if deleted then (tr', saveToStorage tr' localStorage, true)
  else (tr', localStorage, false).

(** [addCategory(category)]. *)
Definition addCategory (category : string)
    (tr : t) (localStorage : gmap string string)
  : t * gmap string string :=
  let tr' := set_categories (Set_add category (categories tr)) tr in
  (tr', saveToStorage tr' localStorage).
End Host.

Record stats := {
  totalHabits : Z;
  completedToday : Z;
  completionRateToday : JsNumber.number;
  averageStreak : JsNumber.number;
  longestStreak : Z
}.

(** [getOverallStats()]. *)
Definition getOverallStats (now : Z) (tr : t) : stats :=
  let habits := getActiveHabits tr in
  let totalHabits := Z.of_nat (length habits) in
  let completedToday :=
    Z.of_nat (length (List.filter (Habit.isCompletedToday now) habits)) in
  let totalStreaks := fold_left (fun sum h => sum + Habit.streak h) habits 0 in
  let avgStreak :=
    if 0 <? totalHabits
    then JsNumber.div (JsNumber.of_Z totalStreaks) (JsNumber.of_Z totalHabits)
    else JsNumber.of_Z 0 in
  {| totalHabits := totalHabits;
     completedToday := completedToday;
     completionRateToday :=
       if 0 <? totalHabits
       then JsNumber.mul
              (JsNumber.div (JsNumber.of_Z completedToday)
                            (JsNumber.of_Z totalHabits))
              (JsNumber.of_Z 100)
       else JsNumber.of_Z 0;
     averageStreak := avgStreak;
     longestStreak :=
       fold_right Z.max 0 (map Habit.longestStreak habits) |}.

End HabitTracker.

(** ** Hydration from storage

    What [JSON.parse] delivers is untyped, and neither [loadFromStorage] nor
    the [Habit] constructor checks it, so this part of the tracker is
    modelled on JavaScript values. *)

Module Hydration.

#[warnings="-register-all"] Inductive value :=
| VNull
| VBool (b : bool)
| VNum (n : Z)
| VStr (s : string)
| VArr (l : list value)
| VObj (l : list (string * value))
| VDate (t : Z).

(** Statement completion: the state of [this] when the statement ended
    normally, or when it threw. *)
Inductive outcome (S : Type) :=
| Normal (s : S)
| Throw (s : S).
Arguments Normal {S} s.
Arguments Throw {S} s.

(** [try { body } catch (error) { handler }]. *)
Definition try_catch {S} (body : outcome S) (handler : S -> outcome S)
  : outcome S :=
  match body with
  | Normal s => Normal s
  | Throw s => handler s
  end.

(** Truthiness; [None] is [undefined]. *)
Definition truthy (v : option value) : bool :=
  match v with
  | None | Some VNull => false
  | Some (VBool b) => b
  | Some (VNum n) => negb (n =? 0)
  | Some (VStr s) => negb (String.eqb s "")
  | Some (VArr _ | VObj _ | VDate _) => true
  end.

Fixpoint assoc (k : string) (l : list (string * value)) : option value :=
  match l with
  | [] => None
  | (k', v) :: r => if String.eqb k' k then Some v else assoc k r
  end.

(** [v.k] for one of the property names read in this file, on a value other
    than [null] and [undefined]: only objects have such properties. *)
Definition prop (k : string) (v : value) : option value :=
  match v with
  | VObj l => assoc k l
  | _ => None
  end.

(** [data.k] on a parsed text: [None] is the [TypeError] of reading a
    property of [null]. *)
Definition read (k : string) (data : value) : option (option value) :=
  match data with
  | VNull => None
  | _ => Some (prop k data)
  end.

Definition chars (s : string) : list value :=
  map (fun a => VStr (String a EmptyString)) (String.list_ascii_of_string s).

(** The elements an iteration yields: arrays and strings are iterable,
    [None] is the [TypeError] for the other values. *)
Definition iterate (v : option value) : option (list value) :=
  match v with
  | Some (VArr l) => Some l
  | Some (VStr s) => Some (chars s)
  | _ => None
  end.

(** [SameValueZero], the key equality of [Map] and [Set]: parsed arrays and
    objects are fresh, hence equal to no other key. *)
Definition sameValueZero (a b : option value) : bool :=
  match a, b with
  | None, None => true
  | Some VNull, Some VNull => true
  | Some (VBool x), Some (VBool y) => Bool.eqb x y
  | Some (VNum x), Some (VNum y) => x =? y
  | Some (VStr x), Some (VStr y) => String.eqb x y
  | _, _ => false
  end.

(** A hydrated habit: its seventeen properties, by name. *)
Definition habit := list (string * value).

Record t := {
  habits : list (option value * habit);
  categories : list value
}.

Definition set_habits (m : list (option value * habit)) (tr : t) : t :=
  {| habits := m; categories := categories tr |}.
Definition set_categories (s : list value) (tr : t) : t :=
  {| habits := habits tr; categories := s |}.

Fixpoint Map_set (k : option value) (h : habit)
    (m : list (option value * habit)) : list (option value * habit) :=
  match m with
  | [] => [(k, h)]
  | (k', h') :: r =>
      if sameValueZero k' k then (k', h) :: r else (k', h') :: Map_set k h r
  end.

(** [new Map(entries)]. *)
Definition Map_new (entries : list (option value * habit))
  : list (option value * habit) :=
  fold_left (fun m e => Map_set (fst e) (snd e) m) entries [].

Definition Set_add (v : value) (s : list value) : list value :=
  if existsb (fun w => sameValueZero (Some w) (Some v)) s then s else s ++ [v].

(** [new Set(iterable)]. *)
Definition Set_new (v : option value) : option (list value) :=
  match iterate v with
  | Some l => Some (fold_left (fun s x => Set_add x s) l [])
  | None => None
  end.

Definition seedCategories : list value :=
  [VStr "health"; VStr "productivity"; VStr "learning"; VStr "social";
   VStr "creative"; VStr "general"].

(** [localStorage.getItem('atomicHabitsTracker') || '{}']: [getItem] gives
    [null] for a missing key, and the empty text is falsy too. *)
Definition textOf (item : option string) : string :=
  match item with
  | Some s => if String.eqb s "" then "{}" else s
  | None => "{}"
  end.

Section Host.
(** [JSON.parse], a built-in of the host: [None] is a [SyntaxError]. *)
Variable JSON_parse : string -> option value.
Variable now : Z.
Variable rnd : string.

(** The destructuring defaults of the [Habit] constructor. *)
Definition defaults : list (string * value) :=
  [("name", VStr ""); ("description", VStr ""); ("category", VStr "general");
   ("cue", VStr ""); ("craving", VStr ""); ("response", VStr "");
   ("reward", VStr ""); ("difficulty", VNum 1); ("frequency", VStr "daily");
   ("targetCount", VNum 1); ("streak", VNum 0); ("longestStreak", VNum 0);
   ("completions", VArr []); ("isActive", VBool true);
   ("createdAt", VDate now); ("updatedAt", VDate now)].

(** [Habit.fromJSON(data)], that is [new Habit(data)]: destructuring
    [null] or [undefined] throws, any other value is read property by
    property. *)
Definition Habit_fromJSON (data : option value) : option habit :=
  match data with
  | None | Some VNull => None
  | Some d =>
      let id := prop "id" d in
      Some (("id", if truthy id then default VNull id
                   else VStr (Habit.generateId now rnd))
            :: map (fun kd => (fst kd, default (snd kd) (prop (fst kd) d)))
                   defaults)
  end.

(** The callback [([id, habitData]) => [id, Habit.fromJSON(habitData)]]. *)
Definition entry (e : value) : option (option value * habit) :=
  match iterate (Some e) with
  | Some l =>
      match Habit_fromJSON (l !! 1%nat) with
      | Some h => Some (l !! 0%nat, h)
      | None => None
      end
  | None => None
  end.

(** [x.map(entry)]: only arrays have a [map] method. *)
Definition array_map (x : option value)
  : option (list (option value * habit)) :=
  match x with
  | Some (VArr l) => mapM entry l
  | _ => None
  end.

(** The body of the [try] block of [loadFromStorage]. *)
Definition loadBody (item : option string) (this : t) : outcome t :=
  match JSON_parse (textOf item) with
  | None => Throw this
  | Some data =>
      (* if (data.habits) this.habits = new Map(data.habits.map(...)) *)
      match read "habits" data with
      | None => Throw this
      | Some dh =>
          match (if truthy dh
                 then option_map (fun es => set_habits (Map_new es) this)
                                 (array_map dh)
                 else Some this) with
          | None => Throw this
          | Some this1 =>
              (* if (data.categories) this.categories = new Set(...) *)
              match read "categories" data with
              | None => Throw this1
              | Some dc =>
                  if truthy dc
                  then match Set_new dc with
                       | Some s => Normal (set_categories s this1)
                       | None => Throw this1
                       end
                  else Normal this1
              end
          end
      end
  end.

(** [loadFromStorage()], [item] being
    [localStorage.getItem('atomicHabitsTracker')]. *)
Definition loadFromStorage (item : option string) (this : t) : outcome t :=
  try_catch (loadBody item this) (fun this' => Normal (set_habits [] this')).

(** The constructor of [HabitTracker]. *)
Definition new (item : option string) : outcome t :=
  loadFromStorage item {| habits := []; categories := seedCategories |}.
End Host.

(** The persisted state layout as the specification gives it:
    [{ habits: [[id, HabitRecord], ...], categories: [string, ...] }]. *)
Definition is_string (v : value) : bool :=
  match v with VStr _ => true | _ => false end.
Definition is_record (v : value) : bool :=
  match v with VObj _ => true | _ => false end.
Definition is_pair (v : value) : bool :=
  match v with
  | VArr [k; r] => is_string k && is_record r
  | _ => false
  end.
Definition layout_ok (data : value) : bool :=
  match prop "habits" data, prop "categories" data with
  | Some (VArr hs), Some (VArr cs) => forallb is_pair hs && forallb is_string cs
  | _, _ => false
  end.

End Hydration.

(** ** What is stored: the snapshot as [JSON.stringify] writes it

    [JSON.stringify] keeps strings, numbers and booleans, leaves out absent
    properties and writes a [Date] as its [toISOString()] text;
    [JSON.parse] reads that back as the value below. *)

Module Persistence.
Import Hydration.

Section Image.
(** The ['YYYY-MM-DD'] text that a day number stands for, and
    [Date.prototype.toISOString]. *)
Variable dayText : Z -> string.
Variable toISOString : Z -> string.

Definition completionValue (c : Habit.completion) : value :=
  VObj [("date", VStr (dayText (Habit.date c)));
        ("timestamp", VStr (toISOString (Habit.timestamp c)));
        ("count", VNum (Habit.count c))].

(** The properties of a habit record that are present, in the order in
    which [toJSON] lists them. *)
Definition recordFields (r : Habit.config) : list (string * value) :=
  omap (fun kv => pair (fst kv) <$> snd kv)
    [("id", VStr <$> Habit.cfg_id r);
     ("name", VStr <$> Habit.cfg_name r);
     ("description", VStr <$> Habit.cfg_description r);
     ("category", VStr <$> Habit.cfg_category r);
     ("cue", VStr <$> Habit.cfg_cue r);
     ("craving", VStr <$> Habit.cfg_craving r);
     ("response", VStr <$> Habit.cfg_response r);
     ("reward", VStr <$> Habit.cfg_reward r);
     ("difficulty", VNum <$> Habit.cfg_difficulty r);
     ("frequency", VStr <$> Habit.cfg_frequency r);
     ("targetCount", VNum <$> Habit.cfg_targetCount r);
     ("streak", VNum <$> Habit.cfg_streak r);
     ("longestStreak", VNum <$> Habit.cfg_longestStreak r);
     ("completions",
      (fun cs => VArr (map completionValue cs)) <$> Habit.cfg_completions r);
     ("isActive", VBool <$> Habit.cfg_isActive r);
     ("createdAt", (fun t => VStr (toISOString t)) <$> Habit.cfg_createdAt r);
     ("updatedAt", (fun t => VStr (toISOString t)) <$> Habit.cfg_updatedAt r)].

Definition snapshotValue (snap : HabitTracker.snapshot) : value :=
  VObj [("habits",
         VArr (map (fun e => VArr [VStr (fst e); VObj (recordFields (snd e))])
                   (HabitTracker.s_habits snap)));
        ("categories", VArr (map VStr (HabitTracker.s_categories snap)))].
End Image.

End Persistence.

(** ** Callers in the interface

    The parts of the view code that compute on habits; what they do to the
    document is left out. *)

Module UIComponents.

(** The width of the progress bar in [createHabitCard]:
    [(habit.streak / Math.max(habit.longestStreak, 7)) * 100]. *)
Definition progressPercentage (habit : Habit.t) : JsNumber.number :=
  JsNumber.mul
    (JsNumber.div (JsNumber.of_Z (Habit.streak habit))
                  (JsNumber.of_Z (Z.max (Habit.longestStreak habit) 7)))
    (JsNumber.of_Z 100).

End UIComponents.

Module HabitTrackingInterface.

Definition milestones : list Z := [7; 30; 100; 365].

Definition messages : list (Z * string) :=
  [(7, "🔥 One week streak! You're building momentum!");
   (30, "🌟 30-day streak! This is becoming automatic!");
   (100, "💎 100-day streak! You're a habit diamond!");
   (365, "👑 One year streak! You're a habit legend!")].

(** [messages[streak]]. *)
Fixpoint lookup (streak : Z) (l : list (Z * string)) : option string :=
  match l with
  | [] => None
  | (k, m) :: r => if k =? streak then Some m else lookup streak r
  end.

(** [showMilestoneMessage(streak)]: the text it hands to
    [showSuccessMessage]. *)
Definition showMilestoneMessage (streak : Z) : string :=
  match lookup streak messages with
  | Some m => m
  | None => pretty streak +:+ "-day streak achieved!"
  end.

(** [checkForMilestones(habit)]: the texts it hands to [showSuccessMessage],
    in order. *)
Definition checkForMilestones (LocalTZA now : Z) (habit : Habit.t)
  : list string :=
  let completionRate7Days := Habit.getCompletionRate LocalTZA now 7 habit in
  let completionRate30Days := Habit.getCompletionRate LocalTZA now 30 habit in
  (if existsb (Z.eqb (Habit.streak habit)) milestones
   then [showMilestoneMessage (Habit.streak habit)] else [])
  ++ (if JsNumber.strictEq completionRate7Days (JsNumber.of_Z 100)
         && (7 <=? Z.of_nat (length (Habit.completions habit)))
      then ["🎉 Perfect week! You're on fire!"] else [])
  ++ (if JsNumber.strictEq completionRate30Days (JsNumber.of_Z 100)
         && (30 <=? Z.of_nat (length (Habit.completions habit)))
      then ["🏆 Perfect month! You're a habit master!"] else []).

End HabitTrackingInterface.

(** ** Notions used in the statements *)

(** The [N] consecutive calendar days that end on day [last]. *)
Definition consecutiveDays (last : Z) (N : nat) : list Z :=
  map (fun i => last - Z.of_nat N + 1 + Z.of_nat i) (seq 0 N).

(** The order of the completion log after sorting. *)
Definition byDate (a b : Habit.completion) : Prop :=
  Habit.date a <= Habit.date b.

(** The record that [complete] pushes for the instant [dt]. *)
Definition recordOf (dt : Z) : Habit.completion :=
  {| Habit.date := JsDate.toISODate dt; Habit.timestamp := dt;
     Habit.count := 1 |}.

(** The records of a log that carry the day of [dt]. *)
Definition recordsOfDay (dt : Z) (l : list Habit.completion)
  : list Habit.completion :=
  List.filter (fun c => Habit.date c =? JsDate.toISODate dt) l.

(** A habit built with defaults around a given log of days. *)
Definition habitWithDays (days : list Z) : Habit.t :=
  Habit.set_completions
    (map (fun d => Habit.Build_completion d (JsDate.parseISODate d) 1) days)
    (Habit.new 0 "r" Habit.no_config).

(** A sequence of completion steps, each with the clock reading and the date
    of its call. *)
Definition completeAll (steps : list (Z * Z)) (h : Habit.t) : Habit.t :=
  fold_left (fun h step => fst (Habit.complete (fst step) (snd step) h)) steps h.

(** A configuration that names only [streak]. *)
Definition configWithStreak (s : Z) : Habit.config :=
  Habit.Build_config None None None None None None None None None None None
                     (Some s) None None None None None.

(** [count / days * 100] on JavaScript numbers. *)
Definition percentage (count days : Z) : JsNumber.number :=
  JsNumber.mul (JsNumber.div (JsNumber.of_Z count) (JsNumber.of_Z days))
               (JsNumber.of_Z 100).

(** The window of [getCompletionRate] as the specification words it: the
    calendar days from [today - days] to [today], both included. *)
Definition inClaimedWindow (now days : Z) (c : Habit.completion) : bool :=
  (JsDate.toISODate now - days <=? Habit.date c)
  && (Habit.date c <=? JsDate.toISODate now).

Definition claimedRate (now days : Z) (h : Habit.t) : JsNumber.number :=
  percentage
    (Z.of_nat (length (List.filter (inClaimedWindow now days)
                                   (Habit.completions h))))
    days.

(** The window at calendar-day granularity that the comparison of instants
    amounts to: day [today - days] is inside only when [now] is itself a UTC
    midnight. *)
Definition inWindow (now days : Z) (c : Habit.completion) : bool :=
  (if JsDate.TimeWithinDay now =? 0
   then JsDate.toISODate now - days <=? Habit.date c
   else JsDate.toISODate now - days <? Habit.date c)
  && (Habit.date c <=? JsDate.toISODate now).

(** The last [days] calendar days, today included. *)
Definition inLastDays (now days : Z) (c : Habit.completion) : bool :=
  (JsDate.toISODate now - days <? Habit.date c)
  && (Habit.date c <=? JsDate.toISODate now).

(** The sum of a list of integers. *)
Definition sumZ (l : list Z) : Z := fold_right Z.add 0 l.

(** A tracker object fresh from the first two lines of its constructor. *)
Definition blankTracker : Hydration.t :=
  {| Hydration.habits := []; Hydration.categories := Hydration.seedCategories |}.

(** An entry of the stored habit list on which the rebuilding callback
    throws: it is not iterable, or its second component is missing or
    [null]. *)
Definition badEntry (e : Hydration.value) : Prop :=
  Hydration.iterate (Some e) = None \/
  exists l, Hydration.iterate (Some e) = Some l /\
            (l !! 1%nat = None \/ l !! 1%nat = Some Hydration.VNull).

(** Parsed values on which the body of [loadFromStorage] throws. *)
Inductive throwingShape : Hydration.value -> Prop :=
| shape_null : throwingShape Hydration.VNull
| shape_habits l v :
    Hydration.assoc "habits" l = Some v ->
    Hydration.truthy (Some v) = true ->
    (forall a, v <> Hydration.VArr a) ->
    throwingShape (Hydration.VObj l)
| shape_entry l es e :
    Hydration.assoc "habits" l = Some (Hydration.VArr es) ->
    e ∈ es -> badEntry e ->
    throwingShape (Hydration.VObj l)
| shape_categories l v :
    Hydration.assoc "categories" l = Some v ->
    Hydration.truthy (Some v) = true ->
    Hydration.iterate (Some v) = None ->
    throwingShape (Hydration.VObj l).

(** The aggregate example of the specification: three active habits with
    streaks 3, 0 and 7, the first and the third completed on day 9, and one
    inactive habit. *)
Definition exampleHabit (s l : Z) (days : list Z) (active : bool) : Habit.t :=
  Habit.new 0 "r"
    (Habit.Build_config None None None None None None None None None None None
       (Some s) (Some l)
       (Some (map (fun d => Habit.Build_completion d (JsDate.parseISODate d) 1)
                  days))
       (Some active) None None).

Definition exampleTracker : HabitTracker.t :=
  {| HabitTracker.habits :=
       [("a", exampleHabit 3 4 [7; 8; 9] true);
        ("b", exampleHabit 0 2 [5] true);
        ("c", exampleHabit 9 9 [9] false);
        ("d", exampleHabit 7 7 [9] true)];
     HabitTracker.categories := ["general"] |}.

(** ** Notions used in the further properties *)

(** The four texts of the habit loop: cue, craving, response, reward. *)
Definition loopTexts (h : Habit.t) : list string :=
  [Habit.cue h; Habit.craving h; Habit.response h; Habit.reward h].

(** Agreement on every field other than the four texts of the loop and
    [updatedAt]. *)
Definition sameOutsideLoop (h h' : Habit.t) : Prop :=
  Habit.id h' = Habit.id h /\ Habit.name h' = Habit.name h /\
  Habit.description h' = Habit.description h /\
  Habit.category h' = Habit.category h /\
  Habit.difficulty h' = Habit.difficulty h /\
  Habit.frequency h' = Habit.frequency h /\
  Habit.targetCount h' = Habit.targetCount h /\
  Habit.streak h' = Habit.streak h /\
  Habit.longestStreak h' = Habit.longestStreak h /\
  Habit.completions h' = Habit.completions h /\
  Habit.isActive h' = Habit.isActive h /\
  Habit.createdAt h' = Habit.createdAt h.

(** The completion log in strictly ascending order of days. *)
Definition ascending (a b : Habit.completion) : Prop :=
  Habit.date a < Habit.date b.

(** [count / days * factor] on JavaScript numbers. *)
Definition scaledRatio (count days factor : Z) : JsNumber.number :=
  JsNumber.mul (JsNumber.div (JsNumber.of_Z count) (JsNumber.of_Z days))
               (JsNumber.of_Z factor).

(** The operations of the tracker that change its state, with the clock
    readings and random suffixes of the calls. *)
Inductive operation :=
| AddHabit (now : Z) (rnd : string) (habitData : Habit.config)
| CompleteHabit (now : Z) (id : string) (dt : Z)
| DeleteHabit (id : string)
| AddCategory (category : string).

(** The tracker together with the storage. *)
Definition world : Type := HabitTracker.t * gmap string string.

Definition step (JSON_stringify : HabitTracker.snapshot -> string)
    (op : operation) (w : world) : world :=
  match op with
  | AddHabit now rnd habitData =>
      fst (HabitTracker.addHabit JSON_stringify now rnd habitData
                                 (fst w) (snd w))
  | CompleteHabit now id dt =>
      fst (HabitTracker.completeHabit JSON_stringify now id dt (fst w) (snd w))
  | DeleteHabit id =>
      fst (HabitTracker.deleteHabit JSON_stringify id (fst w) (snd w))
  | AddCategory category =>
      HabitTracker.addCategory JSON_stringify category (fst w) (snd w)
  end.

Definition run (JSON_stringify : HabitTracker.snapshot -> string)
    (ops : list operation) (w : world) : world :=
  fold_left (fun w op => step JSON_stringify op w) ops w.

(** The storage holds the text of the collection as it is in memory. *)
Definition inSync (JSON_stringify : HabitTracker.snapshot -> string)
    (w : world) : Prop :=
  snd w !! HabitTracker.storageKey
  = Some (JSON_stringify (HabitTracker.snapshotOf (fst w))).

(** What a [Map] and a [Set] guarantee, and how the tracker files habits:
    no key and no category twice, every habit under its own id, and no
    empty id. *)
Definition wellKeyed (tr : HabitTracker.t) : Prop :=
  NoDup (map fst (HabitTracker.habits tr)) /\
  NoDup (HabitTracker.categories tr) /\
  Forall (fun e => fst e = Habit.id (snd e) /\ fst e <> "")
         (HabitTracker.habits tr).

(** * Properties *)

(** ** Date arithmetic *)

Section DateFacts.
Import JsDate.

Lemma msPerDay_pos : 0 < msPerDay.
Proof. reflexivity. Qed.

Lemma Day_parseISODate d : Day (parseISODate d) = d.
Proof. unfold Day, parseISODate. apply Z.div_mul. discriminate. Qed.

(** Whole days between an instant and the midnight of a day. *)
Lemma days_since_midnight t d :
  (t - parseISODate d) / msPerDay = Day t - d.
Proof.
  unfold Day, parseISODate.
  replace (t - d * msPerDay) with (t + (- d) * msPerDay) by ring.
  rewrite Z.div_add by discriminate. ring.
Qed.

Lemma days_between_midnights a b :
  (parseISODate a - parseISODate b) / msPerDay = a - b.
Proof. rewrite days_since_midnight, Day_parseISODate. reflexivity. Qed.

(** Subtracting from the day of the month moves the instant back by whole
    days, whatever the zone and the month. *)
Lemma setDate_getDate tza t days :
  setDate tza t (getDate tza t - days) = t - days * msPerDay.
Proof.
  unfold setDate, getDate, UTC, TimeWithinDay, Day.
  set (l := LocalTime tza t).
  pose proof (Z.div_mod l msPerDay ltac:(discriminate)) as E.
  unfold LocalTime in *. subst l. lia.
Qed.

Lemma midnight_le_instant d t : (parseISODate d <=? t) = (d <=? Day t).
Proof.
  unfold parseISODate, Day.
  pose proof (Z.div_mod t msPerDay ltac:(discriminate)) as E.
  pose proof (Z.mod_pos_bound t msPerDay msPerDay_pos) as B.
  apply eq_true_iff_eq. rewrite !Z.leb_le. nia.
Qed.

(** A midnight is at or after an instant iff its day is after the
    instant's day, or is that day when the instant is itself a midnight. *)
Lemma instant_le_midnight t d :
  (t <=? parseISODate d) =
  if TimeWithinDay t =? 0 then Day t <=? d else Day t <? d.
Proof.
  unfold parseISODate, Day, TimeWithinDay.
  pose proof (Z.div_mod t msPerDay ltac:(discriminate)) as E.
  pose proof (Z.mod_pos_bound t msPerDay msPerDay_pos) as B.
  apply eq_true_iff_eq.
  destruct (Z.eqb_spec (t mod msPerDay) 0);
    rewrite ?Z.leb_le, ?Z.ltb_lt; nia.
Qed.

Lemma TimeWithinDay_shift t days :
  TimeWithinDay (t - days * msPerDay) = TimeWithinDay t.
Proof.
  unfold TimeWithinDay.
  replace (t - days * msPerDay) with (t + (- days) * msPerDay) by ring.
  apply Z.mod_add. discriminate.
Qed.

Lemma Day_shift t days : Day (t - days * msPerDay) = Day t - days.
Proof.
  unfold Day.
  replace (t - days * msPerDay) with (t + (- days) * msPerDay) by ring.
  rewrite Z.div_add by discriminate. ring.
Qed.
End DateFacts.

(** ** Sorting the completion log *)

Section SortFacts.
Import JsDate Habit.

Lemma compareFn_le a b : (compareFn a b <=? 0) = (date a <=? date b).
Proof.
  unfold compareFn, parseISODate. apply eq_true_iff_eq.
  rewrite !Z.leb_le. pose proof msPerDay_pos. nia.
Qed.

Lemma insert_Permutation c l : insert c l ≡ₚ c :: l.
Proof.
  induction l as [|x r IH]; simpl; [done|].
  destruct (compareFn c x <=? 0); [done|].
  rewrite IH. apply Permutation_swap.
Qed.

Lemma sort_Permutation l : sort l ≡ₚ l.
Proof.
  induction l as [|c l IH]; simpl; [done|].
  rewrite insert_Permutation. by f_equiv.
Qed.

Lemma insert_StronglySorted c l :
  StronglySorted byDate l -> StronglySorted byDate (insert c l).
Proof.
  induction 1 as [|x r Hr IH Hx]; simpl.
  - repeat constructor.
  - rewrite compareFn_le. destruct (Z.leb_spec (date c) (date x)) as [Hle|Hlt].
    + constructor; [by constructor|].
      constructor; [done|].
      eapply Forall_impl; [exact Hx|]. unfold byDate. intros; lia.
    + constructor; [done|].
      rewrite insert_Permutation. constructor; [unfold byDate; lia|done].
Qed.

Lemma sort_StronglySorted l : StronglySorted byDate (sort l).
Proof.
  induction l; simpl; [constructor|by apply insert_StronglySorted].
Qed.

Lemma sort_length l : length (sort l) = length l.
Proof. by rewrite sort_Permutation. Qed.

(** The last record of a sorted log carries the latest day. *)
Lemma last_StronglySorted l c :
  StronglySorted byDate l -> last l = Some c ->
  forall c', c' ∈ l -> date c' <= date c.
Proof.
  induction 1 as [|x r Hr IH Hx]; [done|].
  intros Hl c' Hc'. destruct r as [|y r'].
  - simpl in Hl. inversion Hl; subst. apply list_elem_of_singleton in Hc'.
    subst. lia.
  - change (last (x :: y :: r')) with (last (y :: r')) in Hl.
    apply elem_of_cons in Hc' as [->|Hc']; [|by apply IH].
    rewrite Forall_forall in Hx. apply Hx.
    apply last_Some_elem_of in Hl. done.
Qed.

Lemma last_sort_latest l c m :
  last (sort l) = Some c ->
  m ∈ l -> (forall c', c' ∈ l -> date c' <= date m) ->
  date c = date m.
Proof.
  intros Hl Hm Hmax.
  pose proof (last_StronglySorted _ _ (sort_StronglySorted l) Hl m) as H1.
  assert (c ∈ l) as Hc.
  { rewrite <- (sort_Permutation l). by eapply last_Some_elem_of. }
  specialize (Hmax c Hc).
  assert (m ∈ sort l) by by rewrite sort_Permutation.
  specialize (H1 ltac:(done)). lia.
Qed.
End SortFacts.

(** ** The streak *)

Section StreakFacts.
Import JsDate Habit.

Lemma consecutiveDays_length last N : length (consecutiveDays last N) = N.
Proof. unfold consecutiveDays. by rewrite length_map, length_seq. Qed.

Lemma consecutiveDays_lookup last N (i : nat) :
  (i < N)%nat ->
  consecutiveDays last N !! i = Some (last - Z.of_nat N + 1 + Z.of_nat i).
Proof.
  intros Hi. unfold consecutiveDays.
  rewrite list_lookup_fmap, lookup_seq_lt by done. done.
Qed.

Lemma increasing_StronglySorted (a : Z) (s n : nat) :
  StronglySorted Z.le (map (fun i => a + Z.of_nat i) (seq s n)).
Proof.
  revert s. induction n as [|n IH]; intros s; simpl; constructor; [apply IH|].
  rewrite Forall_forall. intros x Hx.
  apply list_elem_of_fmap in Hx as (i & -> & Hi).
  apply elem_of_seq in Hi. lia.
Qed.

Lemma consecutiveDays_StronglySorted last N :
  StronglySorted Z.le (consecutiveDays last N).
Proof. apply increasing_StronglySorted. Qed.

Lemma dates_StronglySorted l :
  StronglySorted byDate l -> StronglySorted Z.le (map date l).
Proof.
  induction 1 as [|x r Hr IH Hx]; simpl; constructor; [done|].
  rewrite Forall_forall in Hx. rewrite Forall_forall. intros d Hd.
  apply list_elem_of_fmap in Hd as (c & -> & Hc). by apply Hx.
Qed.

(** Sorting a log whose days are [N] consecutive days puts them in order. *)
Lemma sort_consecutiveDays l last N :
  map date l ≡ₚ consecutiveDays last N ->
  map date (sort l) = consecutiveDays last N.
Proof.
  intros Hp. apply (StronglySorted_unique Z.le).
  - apply dates_StronglySorted, sort_StronglySorted.
  - apply consecutiveDays_StronglySorted.
  - by rewrite sort_Permutation.
Qed.

(** Over a run of consecutive days the loop never breaks. *)
Lemma streakLoop_consecutive sorted last N (n : nat) k :
  map date sorted = consecutiveDays last N ->
  (n < N)%nat ->
  streakLoop sorted n k = k + Z.of_nat n.
Proof.
  intros Hd. revert k. induction n as [|i IH]; intros k Hn; simpl; [lia|].
  assert (Hl : forall j : nat, (j < N)%nat ->
            exists c, sorted !! j = Some c /\
                      date c = last - Z.of_nat N + 1 + Z.of_nat j).
  { intros j Hj. pose proof (consecutiveDays_lookup last N j Hj) as E.
    rewrite <- Hd, list_lookup_fmap in E.
    destruct (sorted !! j) as [c|]; [|done]. exists c. split; [done|].
    by inversion E. }
  destruct (Hl (S i) Hn) as (cur & -> & Hcur).
  destruct (Hl i ltac:(lia)) as (prev & -> & Hprev).
  rewrite days_between_midnights, Hcur, Hprev.
  replace (_ - _) with 1 by lia. simpl. rewrite IH by lia. lia.
Qed.

(** What [updateStreak] stores, on a log that is not empty. *)
Lemma updateStreak_nonempty now h :
  completions h <> [] ->
  exists lastRecord,
    last (sort (completions h)) = Some lastRecord /\
    let s := if Day now - date lastRecord <=? 1
             then streakLoop (sort (completions h))
                             (length (completions h) - 1) 1
             else 0 in
    updateStreak now h =
    set_longestStreak (Z.max (longestStreak h) s)
      (set_streak s (set_completions (sort (completions h)) h)).
Proof.
  intros Hne. unfold updateStreak.
  destruct (completions h) as [|c0 cs] eqn:E; [done|].
  cbv beta match zeta.
  destruct (last (sort (c0 :: cs))) as [lastRecord|] eqn:El.
  - exists lastRecord. split; [done|].
    rewrite days_since_midnight, sort_length. done.
  - apply last_None in El.
    pose proof (sort_length (c0 :: cs)) as Hlen. rewrite El in Hlen. done.
Qed.

Lemma updateStreak_empty now h :
  completions h = [] -> updateStreak now h = set_streak 0 h.
Proof. unfold updateStreak. by intros ->. Qed.
End StreakFacts.

Import JsDate Habit.

(** C1.  Streak continuity: when the days of the completion log are exactly
    the [N] consecutive calendar days that end today, [updateStreak] stores
    [streak = N]; and when the latest completion's day is two or more days
    before today, it stores [streak = 0]. *)
Theorem C1_streak_continuity (now : Z) (h : Habit.t) :
  (forall N : nat,
      map date (completions h) ≡ₚ consecutiveDays (toISODate now) N ->
      streak (updateStreak now h) = Z.of_nat N) /\
  (forall latest : completion,
      latest ∈ completions h ->
      (forall c, c ∈ completions h -> date c <= date latest) ->
      2 <= toISODate now - date latest ->
      streak (updateStreak now h) = 0).
Proof.
  split.
  - intros N Hp.
    destruct (decide (completions h = [])) as [E|Hne].
    + rewrite updateStreak_empty by done. simpl.
      rewrite E in Hp. apply Permutation_length in Hp.
      rewrite consecutiveDays_length in Hp. simpl in Hp. lia.
    + destruct (updateStreak_nonempty now h Hne) as (lastRecord & Hl & ->).
      simpl.
      pose proof (sort_consecutiveDays _ _ _ Hp) as Hs.
      assert (HN : length (completions h) = N).
      { rewrite <- (length_map date), Hp. apply consecutiveDays_length. }
      assert (0 < N)%nat by (destruct (completions h); simpl in *; [done|lia]).
      assert (date lastRecord = toISODate now) as ->.
      { assert (last (map date (sort (completions h))) = Some (date lastRecord))
          as E by (by rewrite fmap_last, Hl).
        rewrite Hs, last_lookup, consecutiveDays_length in E.
        rewrite consecutiveDays_lookup in E by lia. inversion E. lia. }
      unfold toISODate. replace (Day now - Day now <=? 1) with true
        by (symmetry; apply Z.leb_le; lia).
      rewrite (streakLoop_consecutive _ _ N) by (done || lia). lia.
  - intros latest Hin Hmax Hgap.
    assert (Hne : completions h <> []) by (intros E; rewrite E in Hin; inversion Hin).
    destruct (updateStreak_nonempty now h Hne) as (lastRecord & Hl & ->).
    simpl. rewrite (last_sort_latest _ _ _ Hl Hin Hmax).
    unfold toISODate in Hgap.
    destruct (Z.leb_spec (Day now - date latest) 1); [lia|done].
Qed.

(** The days 3, 4, 5 logged out of order: on day 5 the streak is 3, on day 7
    it is 0. *)
Lemma C1_streak_continuity_witness :
  let log := [Build_completion 4 0 1; Build_completion 3 0 1;
              Build_completion 5 0 1] in
  let h := set_completions log (Habit.new 0 "r" no_config) in
  streak (updateStreak (5 * msPerDay + 1) h) = 3 /\
  streak (updateStreak (7 * msPerDay + 1) h) = 0.
Proof.
  intros log h. split.
  - apply (proj1 (C1_streak_continuity (5 * msPerDay + 1) h) 3%nat).
    apply Permutation_swap.
  - apply (proj2 (C1_streak_continuity (7 * msPerDay + 1) h)
             (Build_completion 5 0 1)).
    + vm_compute. set_solver.
    + intros c Hc. vm_compute in Hc.
      repeat (apply elem_of_cons in Hc as [->|Hc]; [vm_compute; discriminate|]).
      inversion Hc.
    + vm_compute. discriminate.
Defined.

(** ** Completion *)

Section CompleteFacts.
Import JsDate Habit.

Lemma complete_done now dt h :
  isCompletedToday dt h = true -> complete now dt h = (h, false).
Proof. unfold complete. by intros ->. Qed.

Lemma complete_fresh now dt h :
  isCompletedToday dt h = false ->
  complete now dt h =
  (set_updatedAt now
     (updateStreak now (set_completions (completions h ++ [recordOf dt]) h)),
   true).
Proof. unfold complete. by intros ->. Qed.

Lemma updateStreak_completions now h :
  completions (updateStreak now h) ≡ₚ completions h.
Proof.
  destruct (decide (completions h = [])) as [E|Hne].
  - by rewrite updateStreak_empty.
  - destruct (updateStreak_nonempty now h Hne) as (? & _ & ->).
    simpl. apply sort_Permutation.
Qed.

Lemma isCompletedToday_elem dt h :
  isCompletedToday dt h = true <->
  exists c, c ∈ completions h /\ date c = toISODate dt.
Proof.
  unfold isCompletedToday. rewrite existsb_exists.
  split; intros (c & Hc & Hd); exists c.
  - apply list_elem_of_In in Hc. by apply Z.eqb_eq in Hd.
  - apply list_elem_of_In in Hc. split; [done|by apply Z.eqb_eq].
Qed.

Lemma isCompletedToday_Permutation dt h h' :
  completions h ≡ₚ completions h' ->
  isCompletedToday dt h = isCompletedToday dt h'.
Proof.
  intros Hp. apply eq_true_iff_eq. rewrite !isCompletedToday_elem.
  by setoid_rewrite Hp.
Qed.

Lemma recordsOfDay_Permutation dt l l' :
  l ≡ₚ l' -> recordsOfDay dt l ≡ₚ recordsOfDay dt l'.
Proof.
  unfold recordsOfDay. induction 1; simpl; try done.
  - destruct (_ =? _); [by constructor|done].
  - repeat destruct (_ =? _); try done. apply Permutation_swap.
  - etrans; eauto.
Qed.

Lemma recordsOfDay_none dt h :
  isCompletedToday dt h = false -> recordsOfDay dt (completions h) = [].
Proof.
  unfold isCompletedToday, recordsOfDay.
  induction (completions h) as [|c l IH]; simpl; [done|].
  destruct (date c =? toISODate dt); simpl; [done|exact IH].
Qed.

Lemma complete_completions now dt h :
  isCompletedToday dt h = false ->
  completions (fst (complete now dt h)) ≡ₚ completions h ++ [recordOf dt].
Proof.
  intros Hf. rewrite complete_fresh by done. simpl.
  change (completions (set_updatedAt now ?x)) with (completions x).
  by rewrite updateStreak_completions.
Qed.

(** After [complete] the day is completed, whatever the call returned. *)
Lemma complete_isCompletedToday now dt h :
  isCompletedToday dt (fst (complete now dt h)) = true.
Proof.
  destruct (isCompletedToday dt h) eqn:E.
  - by rewrite complete_done.
  - apply isCompletedToday_elem. exists (recordOf dt).
    rewrite complete_completions by done. split; [|done].
    apply elem_of_app. right. by apply list_elem_of_singleton.
Qed.

Lemma isCompletedToday_same_day d1 d2 h :
  toISODate d1 = toISODate d2 ->
  isCompletedToday d2 h = isCompletedToday d1 h.
Proof. unfold isCompletedToday. by intros ->. Qed.
End CompleteFacts.

(** C2.  Same-day completion: for two instants of the same UTC calendar day,
    the second call of [complete] returns false and changes nothing; on a
    habit that has no record of that day yet the first call returns true and
    adds exactly one record, which is then the only record of that day; on a
    habit that already has one the first call returns false as well. *)
Theorem C2_same_day_completion (now1 now2 d1 d2 : Z) (h : Habit.t) :
  toISODate d1 = toISODate d2 ->
  let first := complete now1 d1 h in
  let second := complete now2 d2 (fst first) in
  snd second = false /\
  fst second = fst first /\
  (isCompletedToday d1 h = false ->
     snd first = true /\
     completions (fst first) ≡ₚ completions h ++ [recordOf d1] /\
     length (completions (fst second)) = S (length (completions h)) /\
     length (recordsOfDay d1 (completions (fst second))) = 1%nat) /\
  (isCompletedToday d1 h = true ->
     snd first = false /\ fst first = h).
Proof.
  intros Hday first second.
  assert (Hsecond : second = (fst first, false)).
  { unfold second. apply complete_done.
    rewrite (isCompletedToday_same_day d1 d2) by done.
    apply complete_isCompletedToday. }
  rewrite Hsecond. simpl. split; [done|]. split; [done|]. split.
  - intros Hfresh.
    pose proof (complete_completions now1 d1 h Hfresh) as Hp. fold first in Hp.
    split; [|split; [done|split]].
    + unfold first. by rewrite complete_fresh.
    + rewrite Hp, length_app. simpl. lia.
    + rewrite (recordsOfDay_Permutation _ _ _ Hp).
      unfold recordsOfDay. rewrite List.filter_app.
      fold (recordsOfDay d1 (completions h)).
      rewrite recordsOfDay_none by done.
      simpl. by rewrite Z.eqb_refl.
  - intros Hdone. unfold first. by rewrite complete_done.
Qed.

(** On a habit not yet completed on the day, the first call succeeds and the
    second is rejected. *)
Lemma C2_same_day_completion_witness :
  let h := habitWithDays [3] in
  let d1 := 4 * msPerDay + 10 in
  let d2 := 4 * msPerDay + 99 in
  snd (complete d2 d2 (fst (complete d1 d1 h))) = false /\
  snd (complete d1 d1 h) = true.
Proof.
  intros h d1 d2.
  pose proof (C2_same_day_completion d1 d2 d1 d2 h ltac:(reflexivity))
    as (H2 & _ & Hfresh & _).
  split; [exact H2|]. apply Hfresh. reflexivity.
Defined.

(** C2, as stated, fails on a habit that already has a record of the day: the
    first of the two calls returns false and adds nothing. *)
Lemma C2_first_call_rejected :
  let h := habitWithDays [4] in
  let d1 := 4 * msPerDay + 10 in
  let d2 := 4 * msPerDay + 99 in
  toISODate d1 = toISODate d2 /\
  snd (complete d1 d1 h) = false /\
  completions (fst (complete d1 d1 h)) = completions h.
Proof. vm_compute. done. Qed.

(** ** The high-water mark *)

Section LongestStreakFacts.
Import JsDate Habit.

Lemma updateStreak_longestStreak now h :
  longestStreak h <= longestStreak (updateStreak now h).
Proof.
  destruct (decide (completions h = [])) as [E|Hne].
  - rewrite updateStreak_empty by done. simpl. lia.
  - destruct (updateStreak_nonempty now h Hne) as (? & _ & ->). simpl. lia.
Qed.

Lemma updateStreak_invariant now h :
  completions h <> [] ->
  streak (updateStreak now h) <= longestStreak (updateStreak now h).
Proof.
  intros Hne.
  destruct (updateStreak_nonempty now h Hne) as (? & _ & ->). simpl. lia.
Qed.

Lemma complete_step now dt h :
  longestStreak h <= longestStreak (fst (complete now dt h)) /\
  (streak h <= longestStreak h ->
   streak (fst (complete now dt h)) <= longestStreak (fst (complete now dt h))) /\
  (snd (complete now dt h) = true ->
   streak (fst (complete now dt h)) <= longestStreak (fst (complete now dt h))).
Proof.
  destruct (isCompletedToday dt h) eqn:E.
  - rewrite complete_done by done. simpl. repeat split; (lia || done).
  - rewrite complete_fresh by done. simpl.
    change (longestStreak (set_updatedAt now ?x)) with (longestStreak x).
    change (streak (set_updatedAt now ?x)) with (streak x).
    set (pushed := set_completions _ h).
    assert (completions pushed <> []) as Hne.
    { unfold pushed. simpl. intros Hnil. by apply app_eq_nil in Hnil as [_ ?]. }
    pose proof (updateStreak_longestStreak now pushed).
    pose proof (updateStreak_invariant now pushed Hne).
    change (longestStreak pushed) with (longestStreak h) in *.
    repeat split; (lia || done).
Qed.

(** Along any sequence of completion steps. *)
Lemma completeAll_invariant steps h :
  longestStreak h <= longestStreak (completeAll steps h) /\
  (streak h <= longestStreak h ->
   streak (completeAll steps h) <= longestStreak (completeAll steps h)).
Proof.
  revert h. induction steps as [|[now dt] steps IH]; intros h; simpl; [lia|].
  destruct (complete_step now dt h) as (Hmono & Hinv & _).
  destruct (IH (fst (complete now dt h))) as (Hmono' & Hinv').
  split; [lia|]. intros Hh. by apply Hinv', Hinv.
Qed.

(** The log keeps one record per day. *)
Lemma complete_NoDup now dt h :
  NoDup (map date (completions h)) ->
  NoDup (map date (completions (fst (complete now dt h)))).
Proof.
  intros Hnd. destruct (isCompletedToday dt h) eqn:E.
  - by rewrite complete_done.
  - rewrite (complete_completions now dt h E), map_app. simpl.
    apply NoDup_app. split; [done|]. split; [|apply NoDup_singleton].
    intros d Hd ->%list_elem_of_singleton.
    apply list_elem_of_fmap in Hd as (c & Hc & Hin).
    assert (isCompletedToday dt h = true) as Ht; [|congruence].
    apply isCompletedToday_elem. by exists c.
Qed.
End LongestStreakFacts.

(** C3.  The high-water mark: the constructor stores the configuration's
    [streak] and [longestStreak] (0 and 0 when absent) unchecked, so
    [longestStreak >= streak] holds after construction exactly when the
    configuration satisfies it; every completion step preserves it, a
    successful step establishes it whatever the state before, and
    [longestStreak] never decreases across a completion step, nor along a
    sequence of them. *)
Theorem C3_longest_streak_invariant (now dt : Z) (rnd : string)
    (c : Habit.config) (steps : list (Z * Z)) (h : Habit.t) :
  (streak (Habit.new now rnd c) = default 0 (cfg_streak c) /\
   longestStreak (Habit.new now rnd c) = default 0 (cfg_longestStreak c)) /\
  streak (Habit.new now rnd no_config)
    <= longestStreak (Habit.new now rnd no_config) /\
  longestStreak h <= longestStreak (fst (complete now dt h)) /\
  (streak h <= longestStreak h ->
   streak (fst (complete now dt h)) <= longestStreak (fst (complete now dt h))) /\
  (snd (complete now dt h) = true ->
   streak (fst (complete now dt h)) <= longestStreak (fst (complete now dt h))) /\
  longestStreak h <= longestStreak (completeAll steps h) /\
  (streak h <= longestStreak h ->
   streak (completeAll steps h) <= longestStreak (completeAll steps h)).
Proof.
  split; [done|]. split; [done|].
  destruct (complete_step now dt h) as (Hmono & Hinv & Hsucc).
  destruct (completeAll_invariant steps h) as (Hmono' & Hinv').
  repeat split; assumption.
Qed.

(** A step on a habit that satisfies the invariant. *)
Lemma C3_longest_streak_invariant_witness :
  let h := habitWithDays [3] in
  let now := 4 * msPerDay + 10 in
  streak (fst (complete now now h)) <= longestStreak (fst (complete now now h)).
Proof.
  intros h now.
  pose proof (C3_longest_streak_invariant now now "r" no_config [] h)
    as (_ & _ & _ & Hpreserved & _).
  apply Hpreserved. vm_compute. discriminate.
Defined.

(** C3, as stated, fails right after construction from a configuration whose
    [streak] exceeds its [longestStreak]. *)
Lemma C3_constructor_unchecked :
  let h := Habit.new 0 "r" (configWithStreak 5) in
  streak h = 5 /\ longestStreak h = 0 /\ ~ (longestStreak h >= streak h).
Proof. vm_compute. repeat split; intros H; by apply H. Qed.

(** ** Serialization *)

Section SerializationFacts.
Import Habit.

Lemma generateId_truthy now rnd : generateId now rnd <> "".
Proof. done. Qed.

(** The constructor leaves no habit with a falsy id. *)
Lemma new_id_truthy now rnd c : id (Habit.new now rnd c) <> "".
Proof.
  unfold Habit.new. simpl. destruct (cfg_id c) as [s|]; [|done].
  by destruct (decide (s = "")).
Qed.

Lemma updateStreak_id now h : id (updateStreak now h) = id h.
Proof.
  destruct (decide (completions h = [])) as [E|Hne].
  - by rewrite updateStreak_empty.
  - by destruct (updateStreak_nonempty now h Hne) as (? & _ & ->).
Qed.

Lemma complete_id now dt h : id (fst (complete now dt h)) = id h.
Proof.
  unfold complete. destruct (isCompletedToday dt h); [done|]. simpl.
  change (id (set_updatedAt now ?x)) with (id x).
  by rewrite updateStreak_id.
Qed.
End SerializationFacts.

(** C4.  Round trip: a habit (its id is truthy, as the constructor leaves it)
    is reproduced field by field by [fromJSON] of its [toJSON]; and [fromJSON]
    stores the [streak], [longestStreak] and [completions] of any record as
    they are, whether or not they agree with each other. *)
Theorem C4_round_trip (now : Z) (rnd : string) (h : Habit.t) :
  id h <> "" ->
  fromJSON now rnd (toJSON h) = h /\
  (forall (data : Habit.config) s l cs,
      cfg_streak data = Some s -> cfg_longestStreak data = Some l ->
      cfg_completions data = Some cs ->
      streak (fromJSON now rnd data) = s /\
      longestStreak (fromJSON now rnd data) = l /\
      completions (fromJSON now rnd data) = cs).
Proof.
  intros Hid. split.
  - destruct h. unfold fromJSON, Habit.new, toJSON. simpl in *.
    by destruct (decide (id0 = "")).
  - intros data s l cs Hs Hl Hc. unfold fromJSON, Habit.new. simpl.
    by rewrite Hs, Hl, Hc.
Qed.

(** A habit with a log and a streak that disagree survives the round trip. *)
Lemma C4_round_trip_witness :
  let h := set_streak 9 (habitWithDays [3; 1]) in
  fromJSON 77 "s" (toJSON h) = h.
Proof.
  intros h. apply (C4_round_trip 77 "s" h). vm_compute. discriminate.
Defined.

(** ** The completion rate *)

Section RateFacts.
Import JsDate Habit JsNumber.

Lemma completionsInPeriod_window tza now days h :
  completionsInPeriod tza now days h
  = List.filter (inWindow now days) (completions h).
Proof.
  unfold completionsInPeriod. apply List.filter_ext. intros c.
  unfold inWindow, toISODate.
  rewrite setDate_getDate, instant_le_midnight, midnight_le_instant.
  by rewrite TimeWithinDay_shift, Day_shift.
Qed.

Lemma getCompletionRate_percentage tza now days h :
  getCompletionRate tza now days h
  = percentage
      (Z.of_nat (length (List.filter (inWindow now days) (completions h))))
      days.
Proof.
  unfold getCompletionRate. by rewrite completionsInPeriod_window.
Qed.

Lemma Qeq_bool_inject_Z n : Qeq_bool (inject_Z n) 0 = (n =? 0).
Proof.
  apply eq_true_iff_eq. rewrite Qeq_bool_iff, Z.eqb_eq.
  unfold Qeq. simpl. lia.
Qed.

(** With a divisor other than 0 the percentage is the exact quotient. *)
Lemma percentage_finite count days :
  days <> 0 ->
  exists q, percentage count days = Finite q /\
            (q == inject_Z count / inject_Z days * 100)%Q.
Proof.
  intros Hd. unfold percentage, div, mul, of_Z.
  rewrite Qeq_bool_inject_Z.
  destruct (Z.eqb_spec days 0) as [|_]; [done|].
  eexists. split; [reflexivity|].
  rewrite Qred_correct. apply Qmult_comp; [apply Qred_correct|reflexivity].
Qed.

Lemma percentage_full days : 0 < days -> percentage days days = Finite 100.
Proof.
  intros Hd. unfold percentage, div, mul, of_Z.
  rewrite Qeq_bool_inject_Z.
  destruct (Z.eqb_spec days 0) as [|_]; [lia|].
  assert (Qred (inject_Z days / inject_Z days) = 1%Q) as ->; [|done].
  change 1%Q with (Qred 1). apply Qred_complete.
  apply Qmult_inv_r. unfold Qeq. simpl. lia.
Qed.

Lemma percentage_zero_days count :
  0 <= count ->
  percentage count 0 = if count =? 0 then NaN else PosInfinity.
Proof.
  intros Hc. unfold percentage, div, mul, of_Z.
  change (Qeq_bool (inject_Z 0) 0) with true. cbv beta match.
  rewrite Qeq_bool_inject_Z.
  destruct (Z.eqb_spec count 0) as [|Hne]; [done|].
  assert (Qle_bool 0 (inject_Z count) = true) as ->; [|done].
  apply Qle_bool_iff. unfold Qle. simpl. lia.
Qed.
End RateFacts.

Import JsNumber.

Lemma rate_exact (tza now days : Z) (h : Habit.t) :
  0 < days ->
  exists q, getCompletionRate tza now days h = Finite q /\
            (q == inject_Z (Z.of_nat (length (List.filter (inWindow now days)
                                                         (completions h))))
                  / inject_Z days * 100)%Q.
Proof.
  intros Hd. rewrite getCompletionRate_percentage.
  apply percentage_finite. lia.
Qed.

(** C5.  The completion rate: for a positive [days] that keeps the start
    of the window, [now - days * msPerDay], within the range of dates, asked
    at an instant that is not exactly a UTC midnight, [getCompletionRate]
    returns [count / days * 100], where [count] is the number of records of
    the last [days] calendar days, [today - days + 1 .. today]; a record of
    the day that lies [days] days before today is not counted. *)
Theorem C5_completion_rate (tza now days : Z) (h : Habit.t) :
  0 < days ->
  - maxTime <= now - days * msPerDay ->
  TimeWithinDay now <> 0 ->
  let counted := List.filter (inLastDays now days) (completions h) in
  completionsInPeriod tza now days h = counted /\
  (forall c, date c = toISODate now - days -> c ∉ counted) /\
  exists q, getCompletionRate tza now days h = Finite q /\
            (q == inject_Z (Z.of_nat (length counted)) / inject_Z days * 100)%Q.
Proof.
  intros Hd _ Hmid counted.
  assert (List.filter (inWindow now days) (completions h) = counted) as Hw.
  { apply List.filter_ext. intros c. unfold inWindow, inLastDays.
    by destruct (Z.eqb_spec (TimeWithinDay now) 0). }
  split; [by rewrite completionsInPeriod_window|]. split.
  - intros c Hc Hin. apply list_elem_of_In, filter_In in Hin as [_ Hin].
    unfold inLastDays in Hin. apply andb_true_iff in Hin as [Hlt%Z.ltb_lt _].
    lia.
  - rewrite <- Hw. by apply rate_exact.
Qed.

(** Two of the last three days completed, asked one millisecond after
    midnight: 2/3 of 100. *)
Lemma C5_completion_rate_witness :
  exists q,
    getCompletionRate 3600000 (5 * msPerDay + 1) 3 (habitWithDays [2; 3; 5])
    = Finite q /\ (q == 2 / 3 * 100)%Q.
Proof.
  apply (C5_completion_rate 3600000 (5 * msPerDay + 1) 3
           (habitWithDays [2; 3; 5])).
  - reflexivity.
  - vm_compute. discriminate.
  - vm_compute. discriminate.
Defined.

(** C5, as stated, fails whenever [now] is not a midnight: the record of the
    day that lies exactly [days] days before today is left out. *)
Lemma C5_window_start_excluded :
  let h := habitWithDays [0] in
  let now := 1 * msPerDay + 1 in
  toISODate now - 1 = 0 /\
  completionsInPeriod 0 now 1 h = [] /\
  getCompletionRate 0 now 1 h = Finite 0 /\
  claimedRate now 1 h = Finite 100 /\
  getCompletionRate 0 now 1 h <> claimedRate now 1 h.
Proof. vm_compute. repeat split; discriminate. Qed.

(** C10.  No guard on the divisor: with [days = 0] the result is [NaN] (no
    record in the period) or [Infinity] (some record in it), never a
    percentage; with [days >= 1] it is a finite number that is not negative. *)
Theorem C10_zero_days (tza now : Z) (h : Habit.t) :
  (completionsInPeriod tza now 0 h = [] ->
   getCompletionRate tza now 0 h = NaN) /\
  (completionsInPeriod tza now 0 h <> [] ->
   getCompletionRate tza now 0 h = PosInfinity) /\
  (forall days, 1 <= days ->
     exists q, getCompletionRate tza now days h = Finite q /\ (0 <= q)%Q).
Proof.
  repeat split.
  - intros E. unfold getCompletionRate. by rewrite E.
  - intros Hne. unfold getCompletionRate.
    fold (percentage (Z.of_nat (length (completionsInPeriod tza now 0 h))) 0).
    rewrite percentage_zero_days by lia.
    destruct (completionsInPeriod tza now 0 h); [done|]. done.
  - intros days Hd.
    destruct (rate_exact tza now days h ltac:(lia)) as (q & Hq & Hv).
    exists q. split; [done|]. rewrite Hv.
    apply Qmult_le_0_compat; [|done].
    apply Qle_shift_div_l; [unfold Qlt; simpl; lia|].
    rewrite Qmult_0_l. unfold Qle. simpl. lia.
Qed.

(** With no record to count, [getCompletionRate(0)] is [NaN]; a later call
    with [days = 1] is finite. *)
Lemma C10_zero_days_witness :
  getCompletionRate 0 (5 * msPerDay + 1) 0 (habitWithDays [2; 3; 5]) = NaN /\
  exists q,
    getCompletionRate 0 (5 * msPerDay + 1) 1 (habitWithDays [2; 3; 5])
    = Finite q /\ (0 <= q)%Q.
Proof.
  pose proof (C10_zero_days 0 (5 * msPerDay + 1) (habitWithDays [2; 3; 5]))
    as (Hnan & _ & Hfin).
  split; [apply Hnan; reflexivity|apply Hfin; lia].
Defined.

Section FullRateFacts.
Import JsDate Habit.

Lemma elem_of_consecutiveDays last N d :
  d ∈ consecutiveDays last N <-> last - Z.of_nat N < d <= last.
Proof.
  unfold consecutiveDays. rewrite list_elem_of_fmap. split.
  - intros (i & -> & Hi). apply elem_of_seq in Hi. lia.
  - intros Hd. exists (Z.to_nat (d - (last - Z.of_nat N + 1))). split; [lia|].
    apply elem_of_seq. lia.
Qed.

Lemma consecutiveDays_NoDup last N : NoDup (consecutiveDays last N).
Proof.
  unfold consecutiveDays. apply NoDup_fmap_2; [|apply NoDup_seq].
  intros i j Hij. lia.
Qed.

Lemma elem_of_dates_filter (p : completion -> bool) l d :
  d ∈ map date (List.filter p l) <->
  exists c, c ∈ l /\ p c = true /\ date c = d.
Proof.
  rewrite list_elem_of_fmap. split.
  - intros (c & -> & Hc). apply list_elem_of_In, filter_In in Hc as [Hc Hp].
    exists c. by rewrite list_elem_of_In.
  - intros (c & Hc & Hp & <-). exists c. split; [done|].
    apply list_elem_of_In, filter_In. by rewrite <- list_elem_of_In.
Qed.

Lemma dates_filter_NoDup (p : completion -> bool) l :
  NoDup (map date l) -> NoDup (map date (List.filter p l)).
Proof.
  induction l as [|c l IH]; simpl; [done|].
  rewrite NoDup_cons. intros [Hc Hl]. destruct (p c); simpl; [|by apply IH].
  rewrite NoDup_cons. split; [|by apply IH].
  intros Hin. apply Hc. apply elem_of_dates_filter in Hin as (c' & ? & _ & <-).
  apply list_elem_of_fmap. by exists c'.
Qed.

(** Whole days since creation never exceed the calendar days since then. *)
Lemma getDaysSinceCreation_le now h :
  getDaysSinceCreation now h <= toISODate now - toISODate (createdAt h) + 1.
Proof.
  unfold getDaysSinceCreation, toISODate, Day.
  pose proof msPerDay_pos as Hpos.
  pose proof (Z.div_mod (createdAt h) msPerDay ltac:(lia)) as E.
  pose proof (Z.mod_pos_bound (createdAt h) msPerDay Hpos) as B.
  assert ((now - createdAt h) / msPerDay
          <= (now - createdAt h / msPerDay * msPerDay) / msPerDay).
  { apply Z.div_le_mono; lia. }
  assert ((now - createdAt h / msPerDay * msPerDay) / msPerDay
          = now / msPerDay - createdAt h / msPerDay).
  { apply (days_since_midnight now (createdAt h / msPerDay)). }
  lia.
Qed.

(** One record per day on each of the last [days] days. *)
Lemma window_count now days h :
  NoDup (map date (completions h)) ->
  (forall d, toISODate now - days < d <= toISODate now ->
             d ∈ map date (completions h)) ->
  0 <= days ->
  TimeWithinDay now <> 0 ->
  Z.of_nat (length (List.filter (inWindow now days) (completions h))) = days.
Proof.
  intros Hnd Hall Hd Hmid.
  assert (map date (List.filter (inWindow now days) (completions h))
          ≡ₚ consecutiveDays (toISODate now) (Z.to_nat days)) as Hp.
  { apply NoDup_Permutation.
    - by apply dates_filter_NoDup.
    - apply consecutiveDays_NoDup.
    - intros d. rewrite elem_of_dates_filter, elem_of_consecutiveDays.
      unfold inWindow. destruct (Z.eqb_spec (TimeWithinDay now) 0); [done|].
      split.
      + intros (c & _ & Hw & <-).
        apply andb_true_iff in Hw as [?%Z.ltb_lt ?%Z.leb_le]. lia.
      + intros Hr. specialize (Hall d ltac:(lia)).
        apply list_elem_of_fmap in Hall as (c & -> & Hc).
        exists c. repeat split; [done|].
        apply andb_true_iff. rewrite Z.ltb_lt, Z.leb_le. lia. }
  apply Permutation_length in Hp.
  rewrite length_map, consecutiveDays_length in Hp. lia.
Qed.
End FullRateFacts.

(** X11.  In a zone of constant offset [tza], away from midnight, the rate of
    a habit with one record on every calendar day since its creation is
    exactly 100, for every positive [days] up to its days since creation
    (the start of the window, [now - days * msPerDay], being within the
    range of dates). *)
Lemma full_rate_off_midnight (tza now days : Z) (h : Habit.t) :
  NoDup (map date (completions h)) ->
  (forall d, toISODate (createdAt h) <= d <= toISODate now ->
             d ∈ map date (completions h)) ->
  1 <= days <= getDaysSinceCreation now h ->
  - maxTime <= now - days * msPerDay ->
  TimeWithinDay now <> 0 ->
  getCompletionRate tza now days h = Finite 100.
Proof.
  intros Hnd Hall Hd _ Hmid.
  pose proof (getDaysSinceCreation_le now h).
  rewrite getCompletionRate_percentage, window_count; try done; try lia.
  - apply percentage_full. lia.
  - intros d Hr. apply Hall. lia.
Qed.

(** Created on day 0 and completed on days 0, 1 and 2; asked on day 2. *)
Lemma full_rate_off_midnight_example :
  getCompletionRate 0 (2 * msPerDay + 5) 2 (habitWithDays [0; 1; 2])
  = Finite 100.
Proof.
  apply full_rate_off_midnight.
  - apply (bool_decide_unpack _). vm_compute. exact I.
  - intros d Hr. change (0 <= d <= 2) in Hr.
    assert (d = 0 \/ d = 1 \/ d = 2) as [-> | [-> | ->]] by lia;
      apply (bool_decide_unpack _); vm_compute; exact I.
  - vm_compute. split; discriminate.
  - vm_compute. discriminate.
  - vm_compute. discriminate.
Defined.

(** C8.  Full rate, at a UTC midnight: a habit created on day 0 with one
    record on each of the days 0, 1 and 2, asked at midnight of day 2 for
    [days = 2] (its days since creation are 3), gets the rate 150 and not
    100, because the record of day [today - days] is counted as well. *)
Theorem C8_midnight_overcount :
  let h := habitWithDays [0; 1; 2] in
  let now := 2 * msPerDay in
  NoDup (map date (completions h)) /\
  toISODate (createdAt h) = 0 /\ toISODate now = 2 /\
  getDaysSinceCreation now h = 3 /\
  getCompletionRate 0 now 2 h = Finite 150 /\
  getCompletionRate 0 now 2 h <> Finite 100.
Proof.
  repeat split; try (vm_compute; discriminate).
  apply (bool_decide_unpack _). vm_compute. exact I.
Qed.

(** ** The repository *)

Section TrackerFacts.
Import HabitTracker.

Lemma Map_put_same id h m : Map_get id m = Some h -> Map_put id h m = m.
Proof.
  induction m as [|[k x] r IH]; simpl; [done|].
  destruct (decide (k = id)); [by intros [= ->]|].
  intros Hg. by rewrite IH.
Qed.

Lemma Map_get_put id h h' m :
  Map_get id m = Some h -> Map_get id (Map_put id h' m) = Some h'.
Proof.
  induction m as [|[k x] r IH]; simpl; [done|].
  destruct (decide (k = id)) as [->|Hne]; simpl.
  - by rewrite decide_True.
  - by rewrite decide_False.
Qed.

Lemma fold_left_streaks l a :
  fold_left (fun sum h => sum + Habit.streak h) l a
  = a + sumZ (map Habit.streak l).
Proof.
  revert a. induction l as [|h l IH]; intros a; simpl; [lia|].
  rewrite IH. lia.
Qed.

Lemma max_upper_bound (l : list Z) x :
  x ∈ l -> x <= fold_right Z.max 0 l.
Proof.
  induction l as [|y l IH]; simpl; [by intros ?%elem_of_nil|].
  intros [->|Hin]%elem_of_cons; [lia|]. specialize (IH Hin). lia.
Qed.

Lemma max_nonneg (l : list Z) : 0 <= fold_right Z.max 0 l.
Proof. induction l; simpl; lia. Qed.

Lemma max_zero_or_attained (l : list Z) :
  fold_right Z.max 0 l = 0 \/ fold_right Z.max 0 l ∈ l.
Proof.
  induction l as [|y l IH]; simpl; [by left|].
  destruct (Z.max_spec y (fold_right Z.max 0 l)) as [[_ ->]|[_ ->]].
  - destruct IH as [?|?]; [by left|right; by right].
  - right. by left.
Qed.

Lemma max_attained (l : list Z) :
  l <> [] -> (forall x, x ∈ l -> 0 <= x) -> fold_right Z.max 0 l ∈ l.
Proof.
  induction l as [|y l IH]; [done|]. intros _ Hpos. simpl.
  destruct l as [|y' l'].
  - simpl. assert (0 <= y) by (apply Hpos; by left).
    rewrite Z.max_l by lia. by left.
  - assert (fold_right Z.max 0 (y' :: l') ∈ y' :: l') as Hin.
    { apply IH; [done|]. intros x Hx. apply Hpos. by right. }
    destruct (Z.max_spec y (fold_right Z.max 0 (y' :: l'))) as [[_ ->]|[_ ->]];
      [by right|by left].
Qed.
End TrackerFacts.



(** C9.  [getOverallStats] aggregates over the active habits, which are the
    habits of the collection whose [isActive] is set: it counts them, counts
    those completed today, gives the share of the latter in percent, the mean
    of their [streak] values and, as [longestStreak], the largest among 0 and
    their [longestStreak] values: the least number that is neither negative
    nor below any of them.  It is their maximum as soon as one of them is
    not negative, and 0 when there is none or all are negative; with no
    active habit the share and the mean are 0 as well. *)
Theorem C9_overall_stats (now : Z) (tr : HabitTracker.t) :
  let active := HabitTracker.getActiveHabits tr in
  let s := HabitTracker.getOverallStats now tr in
  let n := Z.of_nat (length active) in
  let k := Z.of_nat (length (List.filter (isCompletedToday now) active)) in
  (forall h, h ∈ active <->
             (exists id, (id, h) ∈ HabitTracker.habits tr) /\ isActive h = true) /\
  HabitTracker.totalHabits s = n /\
  HabitTracker.completedToday s = k /\
  (active = [] ->
   HabitTracker.completionRateToday s = Finite 0 /\
   HabitTracker.averageStreak s = Finite 0 /\
   HabitTracker.longestStreak s = 0) /\
  (forall h, h ∈ active -> longestStreak h <= HabitTracker.longestStreak s) /\
  0 <= HabitTracker.longestStreak s /\
  (HabitTracker.longestStreak s = 0 \/
   exists h, h ∈ active /\ longestStreak h = HabitTracker.longestStreak s) /\
  ((exists h, h ∈ active /\ 0 <= longestStreak h) ->
   exists h, h ∈ active /\ longestStreak h = HabitTracker.longestStreak s) /\
  ((forall h, h ∈ active -> longestStreak h < 0) ->
   HabitTracker.longestStreak s = 0) /\
  (active <> [] ->
   (exists r, HabitTracker.completionRateToday s = Finite r /\
              (r == inject_Z k / inject_Z n * 100)%Q) /\
   (exists a, HabitTracker.averageStreak s = Finite a /\
              (a == inject_Z (sumZ (map streak active)) / inject_Z n)%Q)).
Proof.
  intros active s n k.
  assert (forall h, h ∈ active ->
                    longestStreak h <= HabitTracker.longestStreak s) as Hub.
  { intros h Hh. apply max_upper_bound, list_elem_of_fmap. by exists h. }
  assert (HabitTracker.longestStreak s = 0 \/
          exists h, h ∈ active /\
                    longestStreak h = HabitTracker.longestStreak s) as Hatt.
  { destruct (max_zero_or_attained (map longestStreak active)) as [E|Hin];
      [by left|right].
    apply list_elem_of_fmap in Hin as (h & Heq & Hh). by exists h. }
  split; [|split; [done|split; [done|split; [|split; [done|split;
    [|split; [done|split; [|split]]]]]]]].
  - intros h. unfold active, HabitTracker.getActiveHabits,
      HabitTracker.getAllHabits.
    rewrite list_elem_of_In, filter_In, <- list_elem_of_In, list_elem_of_fmap.
    split.
    + intros [([id h'] & -> & Hin) Ha]. split; [by exists id|done].
    + intros [[id Hin] Ha]. split; [by exists (id, h)|done].
  - intros E. unfold s, HabitTracker.getOverallStats. fold active.
    by rewrite E.
  - apply max_nonneg.
  - intros (h0 & Hh0 & Hpos). destruct Hatt as [E|Hsome]; [|done].
    exists h0. split; [done|]. specialize (Hub h0 Hh0). lia.
  - intros Hneg. destruct Hatt as [E|(h0 & Hh0 & E)]; [done|].
    specialize (Hneg h0 Hh0). pose proof (max_nonneg (map longestStreak active)).
    unfold s, HabitTracker.getOverallStats in E. simpl in E. fold active in E.
    lia.
  - intros Hne.
    assert (0 < n) as Hn by (unfold n; destruct active; simpl; [done|lia]).
    unfold s, HabitTracker.getOverallStats. fold active. simpl. fold n.
    destruct (Z.ltb_spec 0 n) as [_|]; [|lia].
    split.
    + apply percentage_finite. lia.
    + rewrite fold_left_streaks. unfold div, of_Z.
      rewrite Qeq_bool_inject_Z. destruct (Z.eqb_spec n 0); [lia|].
      eexists. split; [reflexivity|]. by rewrite Qred_correct.
Qed.

(** The aggregate example: mean streak 10/3, 2/3 of 100 completed today, and
    the largest high-water mark among the active habits. *)
Lemma C9_overall_stats_witness :
  let s := HabitTracker.getOverallStats (9 * msPerDay + 1) exampleTracker in
  HabitTracker.totalHabits s = 3 /\
  HabitTracker.completedToday s = 2 /\
  HabitTracker.completionRateToday s = Finite (200 # 3) /\
  HabitTracker.averageStreak s = Finite (10 # 3) /\
  HabitTracker.longestStreak s = 7 /\
  exists h, h ∈ HabitTracker.getActiveHabits exampleTracker /\
            longestStreak h = HabitTracker.longestStreak s.
Proof.
  intros s.
  pose proof (C9_overall_stats (9 * msPerDay + 1) exampleTracker)
    as (_ & _ & _ & _ & _ & _ & _ & Hmax & _).
  repeat split; try reflexivity.
  apply Hmax. exists (exampleHabit 3 4 [7; 8; 9] true).
  split; [vm_compute; constructor|vm_compute; discriminate].
Defined.

(** C9, as stated, fails for an active habit whose [longestStreak] is
    negative, as the constructor accepts it: the statistic is 0, which is
    the high-water mark of no active habit. *)
Lemma C9_negative_longest_streak :
  let tr := {| HabitTracker.habits := [("a", exampleHabit 0 (-5) [] true)];
               HabitTracker.categories := ["general"] |} in
  let s := HabitTracker.getOverallStats 0 tr in
  map longestStreak (HabitTracker.getActiveHabits tr) = [-5] /\
  HabitTracker.longestStreak s = 0 /\
  ~ (exists h, h ∈ HabitTracker.getActiveHabits tr /\
               longestStreak h = HabitTracker.longestStreak s).
Proof.
  intros tr s. split; [reflexivity|]. split; [reflexivity|].
  intros (h & Hh & E). vm_compute in Hh.
  apply elem_of_cons in Hh as [->|Hh]; [|by apply elem_of_nil in Hh].
  vm_compute in E. discriminate.
Qed.

(** ** Hydration *)

Section HydrationFacts.
Import Hydration.
Variable JSON_parse : string -> option value.
Variables (now : Z) (rnd : string).

(** When the body of the [try] throws, the categories have not been
    assigned. *)
Lemma loadBody_Throw item this s :
  loadBody JSON_parse now rnd item this = Throw s ->
  categories s = categories this.
Proof.
  unfold loadBody. destruct (JSON_parse _) as [data|]; [|by intros [= <-]].
  destruct (read "habits" data) as [dh|]; [|by intros [= <-]].
  destruct (truthy dh).
  - destruct (array_map now rnd dh) as [es|]; simpl; [|by intros [= <-]].
    destruct (read "categories" data) as [dc|]; [|by intros [= <-]].
    destruct (truthy dc); [|done].
    destruct (Set_new dc); [done|]. by intros [= <-].
  - destruct (read "categories" data) as [dc|]; [|by intros [= <-]].
    destruct (truthy dc); [|done].
    destruct (Set_new dc); [done|]. by intros [= <-].
Qed.

(** [loadFromStorage] catches whatever its body throws. *)
Lemma loadFromStorage_Normal item this :
  exists tr, loadFromStorage JSON_parse now rnd item this = Normal tr.
Proof.
  unfold loadFromStorage, try_catch.
  destruct (loadBody _ _ _ _ _); eauto.
Qed.

Lemma loadFromStorage_caught item this s :
  loadBody JSON_parse now rnd item this = Throw s ->
  loadFromStorage JSON_parse now rnd item this
  = Normal {| habits := []; categories := categories this |}.
Proof.
  intros Hb. unfold loadFromStorage. rewrite Hb. simpl.
  unfold set_habits. by rewrite (loadBody_Throw _ _ _ Hb).
Qed.

(** Shapes on which the body throws. *)
Lemma loadBody_unparseable item this :
  JSON_parse (textOf item) = None ->
  loadBody JSON_parse now rnd item this = Throw this.
Proof. unfold loadBody, textOf. by intros ->. Qed.

Lemma loadBody_null item this :
  JSON_parse (textOf item) = Some VNull ->
  exists s, loadBody JSON_parse now rnd item this = Throw s.
Proof. unfold loadBody, textOf. intros ->. simpl. eauto. Qed.

Lemma loadBody_habits_not_array item this l v :
  JSON_parse (textOf item) = Some (VObj l) ->
  assoc "habits" l = Some v -> truthy (Some v) = true ->
  (forall a, v <> VArr a) ->
  exists s, loadBody JSON_parse now rnd item this = Throw s.
Proof.
  unfold loadBody, textOf. intros -> Hv Ht Hna. simpl. rewrite Hv, Ht.
  destruct v; simpl; eauto. by destruct (Hna l0).
Qed.

Lemma loadBody_categories_not_iterable item this l v :
  JSON_parse (textOf item) = Some (VObj l) ->
  assoc "categories" l = Some v -> truthy (Some v) = true ->
  iterate (Some v) = None ->
  exists s, loadBody JSON_parse now rnd item this = Throw s.
Proof.
  unfold loadBody, textOf. intros -> Hv Ht Hni. simpl.
  destruct (truthy (assoc "habits" l)).
  - destruct (array_map now rnd (assoc "habits" l)); simpl; [|eauto].
    rewrite Hv, Ht. unfold Set_new. rewrite Hni. eauto.
  - rewrite Hv, Ht. unfold Set_new. rewrite Hni. eauto.
Qed.
End HydrationFacts.

Section HydrationShapes.
Import Hydration.
Variable JSON_parse : string -> option value.
Variables (now : Z) (rnd : string).

(** The callback throws on an entry that cannot be destructured as a pair,
    and on one whose record is [null] or missing. *)
Lemma entry_throws e : entry now rnd e = None <-> badEntry e.
Proof.
  unfold entry, badEntry. destruct (iterate (Some e)) as [l|]; [|by split; eauto].
  split.
  - intros Hn. right. exists l. split; [done|].
    destruct (l !! 1%nat) as [[]|]; simpl in Hn; try done; eauto.
  - intros [?|(l' & [= <-] & [-> | ->])]; done.
Qed.

Lemma loadBody_bad_entry item this l es e :
  JSON_parse (textOf item) = Some (VObj l) ->
  assoc "habits" l = Some (VArr es) -> e ∈ es -> entry now rnd e = None ->
  exists s, loadBody JSON_parse now rnd item this = Throw s.
Proof.
  unfold loadBody. intros -> Hv He Hn. simpl. rewrite Hv. simpl.
  assert (mapM (entry now rnd) es = None) as ->; [|simpl; eauto].
  apply mapM_None, Exists_exists. eauto.
Qed.

Lemma throwingShape_Throw item this data :
  JSON_parse (textOf item) = Some data -> throwingShape data ->
  exists s, loadBody JSON_parse now rnd item this = Throw s.
Proof.
  intros Hp Hshape. destruct Hshape.
  - by apply loadBody_null.
  - by eapply loadBody_habits_not_array.
  - eapply loadBody_bad_entry; eauto. by apply entry_throws.
  - by eapply loadBody_categories_not_iterable.
Qed.

(** These are the only parsed values on which it throws. *)
Lemma Throw_throwingShape item this data s :
  JSON_parse (textOf item) = Some data ->
  loadBody JSON_parse now rnd item this = Throw s ->
  throwingShape data.
Proof.
  unfold loadBody. intros ->.
  destruct data as [|b|n|str|a|l|d]; simpl; try done;
    [intros _; constructor|].
  assert (Hcat : forall this1 : t,
             (if truthy (assoc "categories" l)
              then match Set_new (assoc "categories" l) with
                   | Some c => Normal (set_categories c this1)
                   | None => Throw this1
                   end
              else Normal this1) = Throw s -> throwingShape (VObj l)).
  { intros this1. destruct (assoc "categories" l) as [w|] eqn:Hw; [|done].
    destruct (truthy (Some w)) eqn:Htw; [|done].
    unfold Set_new. destruct (iterate (Some w)) eqn:Hi; [done|].
    intros _. by eapply shape_categories. }
  destruct (assoc "habits" l) as [v|] eqn:Hv; [|apply Hcat].
  destruct (truthy (Some v)) eqn:Ht; [|apply Hcat].
  destruct (array_map now rnd (Some v)) as [es|] eqn:Hm; [apply Hcat|].
  intros _. destruct v as [|b|n|str|es|l'|d]; try (by eapply shape_habits).
  simpl in Hm. apply mapM_None, Exists_exists in Hm as (e & He & Hn).
  eapply shape_entry; [done|done|by apply entry_throws].
Qed.
End HydrationShapes.

(** C6.  Recovery: construction of the tracker never lets an exception out;
    whenever reading the stored text throws (the text does not parse, or
    rebuilding the collection from the parsed value throws, which happens
    exactly on the values of [throwingShape]) the tracker has no habit and
    the seed categories.  The text is not validated otherwise: any other
    parsed value is loaded as the body of the [try] leaves it. *)
Theorem C6_corrupt_storage (JSON_parse : string -> option Hydration.value)
    (now : Z) (rnd : string) (item : option string) :
  (exists tr, Hydration.new JSON_parse now rnd item = Hydration.Normal tr) /\
  (JSON_parse (Hydration.textOf item) = None ->
   Hydration.new JSON_parse now rnd item = Hydration.Normal blankTracker) /\
  (forall s,
      Hydration.loadBody JSON_parse now rnd item blankTracker
      = Hydration.Throw s ->
      Hydration.new JSON_parse now rnd item = Hydration.Normal blankTracker) /\
  (forall data,
      JSON_parse (Hydration.textOf item) = Some data -> throwingShape data ->
      Hydration.new JSON_parse now rnd item = Hydration.Normal blankTracker) /\
  (forall data,
      JSON_parse (Hydration.textOf item) = Some data -> ~ throwingShape data ->
      Hydration.new JSON_parse now rnd item
      = Hydration.loadBody JSON_parse now rnd item blankTracker).
Proof.
  split; [apply loadFromStorage_Normal|]. split; [|split; [|split]].
  - intros Hp.
    exact (loadFromStorage_caught _ _ _ _ blankTracker _
             (loadBody_unparseable _ _ _ _ _ Hp)).
  - intros s Hs.
    exact (loadFromStorage_caught _ _ _ _ blankTracker _ Hs).
  - intros data Hp Hshape.
    destruct (throwingShape_Throw JSON_parse now rnd item blankTracker data
                Hp Hshape) as [s Hs].
    exact (loadFromStorage_caught _ _ _ _ blankTracker _ Hs).
  - intros data Hp Hshape.
    unfold Hydration.new, Hydration.loadFromStorage, Hydration.try_catch.
    fold blankTracker.
    destruct (Hydration.loadBody JSON_parse now rnd item blankTracker)
      as [tr|s] eqn:Hb; [done|].
    destruct Hshape. by eapply Throw_throwingShape.
Qed.

(** A text that does not parse. *)
Lemma C6_corrupt_storage_witness :
  Hydration.new (fun _ => None) 0 "r" (Some "{habits:")
  = Hydration.Normal blankTracker.
Proof.
  pose proof (C6_corrupt_storage (fun _ => None) 0 "r" (Some "{habits:"))
    as (_ & Hunparseable & _).
  apply Hunparseable. reflexivity.
Defined.

(** C6, as stated, fails on texts that parse to a value of the wrong shape on
    which nothing throws: a string in place of the category list is spread
    into its characters, and a number in place of a habit record yields a
    habit made of the defaults. *)
Lemma C6_invalid_shape_loaded :
  let data1 := Hydration.VObj [("categories", Hydration.VStr "ab")] in
  let data2 :=
    Hydration.VObj
      [("habits",
        Hydration.VArr [Hydration.VArr [Hydration.VStr "h1"; Hydration.VNum 5]]);
       ("categories", Hydration.VArr [Hydration.VStr "health"])] in
  Hydration.layout_ok data1 = false /\
  Hydration.layout_ok data2 = false /\
  (exists tr, Hydration.new (fun _ => Some data1) 0 "r" (Some "text")
              = Hydration.Normal tr /\
              Hydration.categories tr
              = [Hydration.VStr "a"; Hydration.VStr "b"] /\
              Hydration.categories tr <> Hydration.seedCategories) /\
  (exists tr, Hydration.new (fun _ => Some data2) 0 "r" (Some "text")
              = Hydration.Normal tr /\
              length (Hydration.habits tr) = 1%nat /\
              Hydration.habits tr <> []).
Proof.
  repeat split; try reflexivity; eexists; repeat split; try reflexivity;
    discriminate.
Qed.

(** * Further properties of the habit entity *)

Section SetterFacts.

(** The recomputed streak and the sorted log depend on the log alone. *)
Lemma updateStreak_ext now h1 h2 :
  completions h1 = completions h2 ->
  streak (updateStreak now h1) = streak (updateStreak now h2) /\
  completions (updateStreak now h1) = completions (updateStreak now h2).
Proof.
  intros E. destruct (decide (completions h1 = [])) as [E1|Hne].
  - rewrite !updateStreak_empty by congruence. done.
  - destruct (updateStreak_nonempty now h1 Hne) as (r1 & Hl1 & ->).
    destruct (updateStreak_nonempty now h2 ltac:(congruence))
      as (r2 & Hl2 & ->).
    rewrite <- E in *. assert (r2 = r1) as -> by congruence. done.
Qed.

Lemma complete_ext now dt h1 h2 :
  completions h1 = completions h2 ->
  snd (complete now dt h1) = snd (complete now dt h2) /\
  (streak h1 = streak h2 ->
   streak (fst (complete now dt h1)) = streak (fst (complete now dt h2))) /\
  completions (fst (complete now dt h1))
  = completions (fst (complete now dt h2)).
Proof.
  intros E. unfold complete, isCompletedToday. rewrite <- E.
  destruct (existsb _ _); simpl; [done|].
  change (streak (set_updatedAt now ?x)) with (streak x).
  change (completions (set_updatedAt now ?x)) with (completions x).
  split; [done|].
  destruct (updateStreak_ext now
              (set_completions (completions h1 ++ [recordOf dt]) h1)
              (set_completions (completions h1 ++ [recordOf dt]) h2))
    as [Hs Hc]; [done|].
  by split.
Qed.

(** X1.  Each of the four setters stores its text in its own field of the
    habit loop and the clock reading in [updatedAt], and leaves every other
    field as it was; so the outcome of [complete] and the completion rate
    stay as well. *)
Theorem setters_descriptive (now : Z) (v : string) (h : Habit.t) :
  loopTexts (setCue now v h) = [v; craving h; response h; reward h] /\
  loopTexts (setCraving now v h) = [cue h; v; response h; reward h] /\
  loopTexts (setResponse now v h) = [cue h; craving h; v; reward h] /\
  loopTexts (setReward now v h) = [cue h; craving h; response h; v] /\
  Forall
    (fun h' =>
       updatedAt h' = now /\ sameOutsideLoop h h' /\
       (forall now' dt,
           snd (complete now' dt h') = snd (complete now' dt h) /\
           streak (fst (complete now' dt h'))
           = streak (fst (complete now' dt h)) /\
           completions (fst (complete now' dt h'))
           = completions (fst (complete now' dt h))) /\
       (forall tza now' days,
           getCompletionRate tza now' days h'
           = getCompletionRate tza now' days h))
    [setCue now v h; setCraving now v h; setResponse now v h;
     setReward now v h].
Proof.
  assert (Hone : forall h',
             updatedAt h' = now -> sameOutsideLoop h h' ->
             updatedAt h' = now /\ sameOutsideLoop h h' /\
             (forall now' dt,
                 snd (complete now' dt h') = snd (complete now' dt h) /\
                 streak (fst (complete now' dt h'))
                 = streak (fst (complete now' dt h)) /\
                 completions (fst (complete now' dt h'))
                 = completions (fst (complete now' dt h))) /\
             (forall tza now' days,
                 getCompletionRate tza now' days h'
                 = getCompletionRate tza now' days h)).
  { intros h' Hu Hsame. split; [done|]. split; [done|].
    destruct Hsame as (_ & _ & _ & _ & _ & _ & _ & Hs & _ & Hc & _).
    split.
    - intros now' dt.
      destruct (complete_ext now' dt h' h Hc) as (? & Hst & ?).
      split; [done|]. split; [by apply Hst|done].
    - intros tza now' days.
      unfold getCompletionRate, completionsInPeriod. by rewrite Hc. }
  do 4 (split; [reflexivity|]).
  repeat (apply List.Forall_cons;
          [apply Hone; [reflexivity|by repeat split]|]).
  apply List.Forall_nil.
Qed.
End SetterFacts.

Section LogFacts.

(** X2.  A completion on one day leaves the status of every other day as it
    was. *)
Theorem complete_other_day (now dt dt' : Z) (h : Habit.t) :
  toISODate dt' <> toISODate dt ->
  isCompletedToday dt' (fst (complete now dt h)) = isCompletedToday dt' h.
Proof.
  intros Hne. destruct (isCompletedToday dt h) eqn:E.
  - by rewrite complete_done.
  - apply eq_true_iff_eq. rewrite !isCompletedToday_elem.
    setoid_rewrite (complete_completions now dt h E).
    setoid_rewrite elem_of_app. setoid_rewrite list_elem_of_singleton.
    split.
    + intros (c & [Hc | ->] & Hd); [by exists c|]. done.
    + intros (c & Hc & Hd). exists c. by split; [left|].
Qed.

Lemma complete_other_day_witness :
  isCompletedToday (3 * msPerDay) (fst (complete 0 (4 * msPerDay)
                                          (habitWithDays [3])))
  = isCompletedToday (3 * msPerDay) (habitWithDays [3]).
Proof. apply complete_other_day. vm_compute. discriminate. Defined.

Lemma byDate_ascending l :
  StronglySorted byDate l -> NoDup (map date l) -> StronglySorted ascending l.
Proof.
  induction 1 as [|x r Hr IH Hx]; simpl; [constructor|].
  rewrite NoDup_cons. intros [Hnin Hnd]. constructor; [by apply IH|].
  rewrite Forall_forall in Hx. rewrite Forall_forall. intros c Hc.
  specialize (Hx c Hc). unfold byDate in Hx. unfold ascending.
  assert (date x <> date c); [|lia].
  intros Heq. apply Hnin. apply list_elem_of_fmap. by exists c.
Qed.

Lemma complete_sorted now dt h :
  snd (complete now dt h) = true ->
  completions (fst (complete now dt h))
  = sort (completions h ++ [recordOf dt]).
Proof.
  destruct (isCompletedToday dt h) eqn:E.
  - by rewrite complete_done.
  - intros _. rewrite complete_fresh by done. simpl.
    change (completions (set_updatedAt now ?x)) with (completions x).
    set (pushed := set_completions _ h).
    assert (completions pushed <> []) as Hne.
    { unfold pushed. simpl. intros Hnil. by apply app_eq_nil in Hnil as [_ ?]. }
    by destruct (updateStreak_nonempty now pushed Hne) as (? & _ & ->).
Qed.

(** X3.  The log keeps one record per day, and a successful completion leaves it
    in strictly ascending order of days. *)
Theorem complete_log_invariant (now dt : Z) (h : Habit.t) :
  NoDup (map date (completions h)) ->
  NoDup (map date (completions (fst (complete now dt h)))) /\
  (snd (complete now dt h) = true ->
   StronglySorted ascending (completions (fst (complete now dt h)))).
Proof.
  intros Hnd. pose proof (complete_NoDup now dt h Hnd) as Hnd'.
  split; [done|]. intros Hok. apply byDate_ascending; [|done].
  rewrite complete_sorted by done. apply sort_StronglySorted.
Qed.

Lemma complete_log_invariant_witness :
  StronglySorted ascending
    (completions (fst (complete 0 (2 * msPerDay) (habitWithDays [3; 1])))).
Proof.
  apply (complete_log_invariant 0 (2 * msPerDay) (habitWithDays [3; 1])).
  - apply (bool_decide_unpack _). vm_compute. exact I.
  - reflexivity.
Defined.

(** Sorting a sorted log changes nothing. *)
Lemma sort_sorted l : StronglySorted byDate l -> sort l = l.
Proof.
  induction 1 as [|x r Hr IH Hx]; simpl; [done|]. rewrite IH.
  destruct r as [|y r']; simpl; [done|].
  rewrite compareFn_le. inversion Hx; subst.
  by rewrite (proj2 (Z.leb_le _ _)).
Qed.

(** X4.  Recomputing the streak twice at the same instant is recomputing it
    once. *)
Theorem updateStreak_idempotent (now : Z) (h : Habit.t) :
  updateStreak now (updateStreak now h) = updateStreak now h.
Proof.
  destruct (decide (completions h = [])) as [E|Hne].
  - rewrite (updateStreak_empty now h E).
    by rewrite updateStreak_empty.
  - destruct (updateStreak_nonempty now h Hne) as (r & Hl & Hu).
    set (l := completions h) in *. set (h1 := updateStreak now h) in *.
    assert (Hc1 : completions h1 = sort l) by (by rewrite Hu).
    assert (Hne1 : completions h1 <> []).
    { rewrite Hc1. intros E. apply Hne.
      pose proof (sort_length l) as Hlen. rewrite E in Hlen.
      by destruct l. }
    destruct (updateStreak_nonempty now h1 Hne1) as (r1 & Hl1 & Hu1).
    rewrite Hu1. rewrite Hc1 in *.
    rewrite (sort_sorted (sort l)) in * by apply sort_StronglySorted.
    rewrite sort_length in *. assert (r1 = r) as -> by congruence.
    set (s := if Day now - date r <=? 1
              then streakLoop (sort l) (length l - 1) 1 else 0) in *.
    simpl in Hu. clearbody h1. subst h1.
    unfold set_longestStreak, set_streak, set_completions. simpl.
    f_equal. lia.
Qed.

Lemma streakLoop_bounds sorted (n : nat) k :
  k <= streakLoop sorted n k <= k + Z.of_nat n.
Proof.
  revert k. induction n as [|i IH]; intros k; simpl; [lia|].
  destruct (sorted !! S i), (sorted !! i); try lia.
  destruct (_ =? 1); [|lia]. specialize (IH (k + 1)). lia.
Qed.

(** X5.  The recomputed streak never exceeds the number of records, and it is at
    least 1 exactly when the latest record is of yesterday, of today or of a
    later day. *)
Theorem streak_bounds (now : Z) (h : Habit.t) :
  0 <= streak (updateStreak now h) <= Z.of_nat (length (completions h)) /\
  (forall latest : completion,
      latest ∈ completions h ->
      (forall c, c ∈ completions h -> date c <= date latest) ->
      (1 <= streak (updateStreak now h) <-> toISODate now - date latest <= 1)).
Proof.
  destruct (decide (completions h = [])) as [E|Hne].
  - rewrite updateStreak_empty by done. simpl. rewrite E. simpl.
    split; [lia|]. intros latest Hin. inversion Hin.
  - destruct (updateStreak_nonempty now h Hne) as (r & Hl & ->). simpl.
    pose proof (streakLoop_bounds (sort (completions h))
                  (length (completions h) - 1) 1) as Hb.
    assert (0 < length (completions h))%nat
      by (destruct (completions h); simpl; [done|lia]).
    split.
    + destruct (_ <=? 1); lia.
    + intros latest Hin Hmax.
      rewrite (last_sort_latest _ _ _ Hl Hin Hmax). unfold toISODate.
      destruct (Z.leb_spec (Day now - date latest) 1); lia.
Qed.
End LogFacts.

Section RunFacts.

Lemma filter_all (P : Z -> Prop) `{forall d, Decision (P d)} (l : list Z) :
  Forall P l -> filter P l = l.
Proof.
  induction 1 as [|x r Hx Hr IH]; [done|].
  by rewrite filter_cons_True, IH.
Qed.

Lemma filter_none (P : Z -> Prop) `{forall d, Decision (P d)} (l : list Z) :
  Forall (fun d => ~ P d) l -> filter P l = [].
Proof.
  induction 1 as [|x r Hx Hr IH]; [done|].
  by rewrite filter_cons_False, IH.
Qed.

Lemma filter_StronglySorted (P : Z -> Prop) `{forall d, Decision (P d)}
    (l : list Z) :
  StronglySorted Z.le l -> StronglySorted Z.le (filter P l).
Proof.
  induction 1 as [|x r Hr IH Hx]; [constructor|].
  rewrite filter_cons. destruct (decide (P x)); [|done].
  constructor; [done|]. rewrite Forall_forall in Hx. rewrite Forall_forall.
  intros d [_ Hd]%list_elem_of_filter. by apply Hx.
Qed.

Lemma sorted_split (a : Z) (l : list Z) :
  StronglySorted Z.le l ->
  l = filter (fun d => d < a) l ++ filter (fun d => a <= d) l.
Proof.
  induction 1 as [|x r Hr IH Hx]; [done|].
  rewrite !filter_cons. destruct (decide (x < a)) as [Hlt|Hge].
  - rewrite decide_False by lia. simpl. by rewrite <- IH.
  - rewrite decide_True by lia.
    assert (Forall (fun d => a <= d) r) as Hall.
    { eapply Forall_impl; [exact Hx|]. simpl. intros; lia. }
    assert (filter (fun d => d < a) r = []) as ->.
    { apply filter_none. eapply Forall_impl; [exact Hall|].
      simpl. intros; lia. }
    simpl. f_equal. symmetry. by apply filter_all.
Qed.

(** The loop counts the run at the end of the sorted log and stops at the
    gap before it. *)
Lemma streakLoop_run sorted (pre : list Z) last N :
  map date sorted = pre ++ consecutiveDays last N ->
  (0 < N)%nat ->
  (forall p, list.last pre = Some p -> p < last - Z.of_nat N) ->
  streakLoop sorted (length sorted - 1) 1 = Z.of_nat N.
Proof.
  intros Hd HN Hgap.
  assert (Hrun : forall j : nat, (j < N)%nat ->
            exists c, sorted !! (length pre + j)%nat = Some c /\
                      date c = last - Z.of_nat N + 1 + Z.of_nat j).
  { intros j Hj.
    assert ((map date sorted) !! (length pre + j)%nat
            = Some (last - Z.of_nat N + 1 + Z.of_nat j)) as E.
    { rewrite Hd, lookup_app_r by lia.
      replace (length pre + j - length pre)%nat with j by lia.
      by apply consecutiveDays_lookup. }
    rewrite list_lookup_fmap in E.
    destruct (sorted !! (length pre + j)%nat) as [c|]; [|done].
    exists c. split; [done|]. by inversion E. }
  assert (Hstop : forall k, streakLoop sorted (length pre) k = k).
  { intros k. destruct (length pre) as [|i] eqn:Hlen; [done|]. simpl.
    destruct (Hrun 0%nat HN) as (cur & Hcur & Hdc).
    rewrite Nat.add_0_r in Hcur. rewrite Hcur.
    destruct (sorted !! i) as [prev|] eqn:Hprev; [|done].
    assert (list.last pre = Some (date prev)) as Hlast.
    { rewrite last_lookup, Hlen. simpl.
      assert ((map date sorted) !! i = Some (date prev)) as E
        by (by rewrite list_lookup_fmap, Hprev).
      rewrite Hd, lookup_app_l in E by lia. done. }
    specialize (Hgap _ Hlast). rewrite days_between_midnights.
    destruct (Z.eqb_spec (date cur - date prev) 1); [lia|done]. }
  assert (Hstep : forall (m : nat) k, (m < N)%nat ->
            streakLoop sorted (length pre + m) k = k + Z.of_nat m).
  { induction m as [|m IH]; intros k Hm.
    - rewrite Nat.add_0_r, Hstop. lia.
    - replace (length pre + S m)%nat with (S (length pre + m)) by lia.
      simpl.
      destruct (Hrun (S m) Hm) as (cur & Hcur & Hdc).
      replace (length pre + S m)%nat with (S (length pre + m)) in Hcur by lia.
      destruct (Hrun m ltac:(lia)) as (prev & Hprev & Hdp).
      rewrite Hcur, Hprev, days_between_midnights, Hdc, Hdp.
      replace (_ - _ =? 1) with true by (symmetry; apply Z.eqb_eq; lia).
      rewrite IH by lia. lia. }
  assert (length sorted = length pre + N)%nat as ->.
  { rewrite <- (length_map date), Hd, length_app, consecutiveDays_length.
    done. }
  replace (length pre + N - 1)%nat with (length pre + (N - 1))%nat by lia.
  rewrite Hstep by lia. lia.
Qed.

(** X6.  The streak is the length of the run of consecutive days that ends with
    the latest record, whatever came before the gap, provided that the
    latest record is of yesterday or later. *)
Theorem streak_run (now last : Z) (N : nat) (h : Habit.t) :
  NoDup (map date (completions h)) ->
  (0 < N)%nat ->
  (forall i : nat, (i < N)%nat ->
                   last - Z.of_nat i ∈ map date (completions h)) ->
  last - Z.of_nat N ∉ map date (completions h) ->
  (forall c, c ∈ completions h -> date c <= last) ->
  toISODate now - last <= 1 ->
  streak (updateStreak now h) = Z.of_nat N.
Proof.
  intros Hnd HN Hrun Hgap Hmax Hrecent.
  assert (Hlastin : last ∈ map date (completions h)).
  { specialize (Hrun 0%nat HN). by rewrite Z.sub_0_r in Hrun. }
  assert (Hne : completions h <> []).
  { intros E. rewrite E in Hlastin. inversion Hlastin. }
  destruct (updateStreak_nonempty now h Hne) as (r & Hl & ->). simpl.
  apply list_elem_of_fmap in Hlastin as (latest & Hdl & Hin).
  assert (date r = last) as Hr.
  { rewrite Hdl. eapply last_sort_latest; eauto.
    intros c Hc. rewrite <- Hdl. by apply Hmax. }
  rewrite Hr. unfold toISODate in Hrecent.
  replace (Day now - last <=? 1) with true by (symmetry; apply Z.leb_le; lia).
  rewrite <- (sort_length (completions h)).
  set (days := map date (sort (completions h))).
  assert (Hsorted : StronglySorted Z.le days)
    by apply dates_StronglySorted, sort_StronglySorted.
  assert (Hperm : days ≡ₚ map date (completions h))
    by (unfold days; by rewrite sort_Permutation).
  set (a := last - Z.of_nat N + 1).
  apply (streakLoop_run _ (filter (fun d => d < a) days) last N); [|done|].
  - fold days. rewrite (sorted_split a days Hsorted) at 1. f_equal.
    apply (StronglySorted_unique Z.le).
    + by apply filter_StronglySorted.
    + apply consecutiveDays_StronglySorted.
    + apply NoDup_Permutation.
      * apply NoDup_filter. by rewrite Hperm.
      * apply consecutiveDays_NoDup.
      * intros d. rewrite list_elem_of_filter, elem_of_consecutiveDays, Hperm.
        split.
        -- intros [Ha Hd]. apply list_elem_of_fmap in Hd as (c & -> & Hc).
           specialize (Hmax c Hc). lia.
        -- intros Hd. split; [lia|].
           replace d with (last - Z.of_nat (Z.to_nat (last - d))) by lia.
           apply Hrun. lia.
  - intros p Hp. apply last_Some_elem_of in Hp.
    apply list_elem_of_filter in Hp as [Hpa Hpd]. rewrite Hperm in Hpd.
    assert (p <> last - Z.of_nat N) by (intros ->; done). lia.
Qed.

(** Days 1 and 2, a gap, then days 5, 6 and 7; asked on day 8. *)
Lemma streak_run_witness :
  streak (updateStreak (8 * msPerDay + 1) (habitWithDays [6; 1; 5; 7; 2]))
  = 3.
Proof.
  apply (streak_run (8 * msPerDay + 1) 7 3 (habitWithDays [6; 1; 5; 7; 2])).
  - apply (bool_decide_unpack _). vm_compute. exact I.
  - lia.
  - intros i Hi.
    assert (i = 0 \/ i = 1 \/ i = 2)%nat as [-> | [-> | ->]] by lia;
      apply (bool_decide_unpack _); vm_compute; exact I.
  - apply (bool_decide_unpack _). vm_compute. exact I.
  - intros c Hc. vm_compute in Hc.
    repeat (apply elem_of_cons in Hc as [->|Hc]; [vm_compute; discriminate|]).
    inversion Hc.
  - vm_compute. discriminate.
Defined.
End RunFacts.

Section AnalyticsFacts.

Lemma daysSinceCreation_facts (now : Z) (h : Habit.t) :
  toISODate now - toISODate (createdAt h) <= getDaysSinceCreation now h
    <= toISODate now - toISODate (createdAt h) + 1 /\
  (createdAt h <= now -> 1 <= getDaysSinceCreation now h) /\
  (getDaysSinceCreation now h = 0 <-> - msPerDay <= now - createdAt h < 0).
Proof.
  pose proof (getDaysSinceCreation_le now h) as Hle.
  unfold getDaysSinceCreation, toISODate, Day in *.
  pose proof msPerDay_pos as Hpos.
  pose proof (Z.div_mod now msPerDay ltac:(lia)) as En.
  pose proof (Z.mod_pos_bound now msPerDay Hpos) as Bn.
  pose proof (Z.div_mod (createdAt h) msPerDay ltac:(lia)) as Ec.
  pose proof (Z.mod_pos_bound (createdAt h) msPerDay Hpos) as Bc.
  pose proof (Z.div_mod (now - createdAt h) msPerDay ltac:(lia)) as Ed.
  pose proof (Z.mod_pos_bound (now - createdAt h) msPerDay Hpos) as Bd.
  repeat split; try nia.
Qed.

(** X7.  The whole days since creation are the calendar days since creation, or
    one more; they are at least 1 for a habit created in the past, and 0
    exactly for one whose creation lies ahead by at most a day (by 24 hours
    to the millisecond included). *)
Theorem getDaysSinceCreation_bounds (now : Z) (h : Habit.t) :
  toISODate now - toISODate (createdAt h) <= getDaysSinceCreation now h
    <= toISODate now - toISODate (createdAt h) + 1 /\
  (createdAt h <= now -> 1 <= getDaysSinceCreation now h) /\
  (getDaysSinceCreation now h = 0 <-> - msPerDay <= now - createdAt h < 0).
Proof. apply daysSinceCreation_facts. Qed.

Lemma getDaysSinceCreation_bounds_witness :
  1 <= getDaysSinceCreation (3 * msPerDay) (habitWithDays []).
Proof.
  pose proof (getDaysSinceCreation_bounds (3 * msPerDay) (habitWithDays []))
    as (_ & Hpast & _).
  apply Hpast. vm_compute. discriminate.
Defined.

Lemma scaledRatio_finite count days factor :
  days <> 0 ->
  exists q, scaledRatio count days factor = Finite q /\
            (q == inject_Z count / inject_Z days * inject_Z factor)%Q.
Proof.
  intros Hd. unfold scaledRatio, div, mul, of_Z.
  rewrite Qeq_bool_inject_Z.
  destruct (Z.eqb_spec days 0) as [|_]; [done|].
  eexists. split; [reflexivity|].
  rewrite Qred_correct. apply Qmult_comp; [apply Qred_correct|reflexivity].
Qed.

Lemma scaledRatio_zero_days count factor :
  0 < count -> 0 < factor -> scaledRatio count 0 factor = PosInfinity.
Proof.
  intros Hc Hf. unfold scaledRatio, div, mul, of_Z.
  change (Qeq_bool (inject_Z 0) 0) with true. cbv beta match.
  rewrite Qeq_bool_inject_Z.
  destruct (Z.eqb_spec count 0) as [|_]; [lia|].
  assert (Qle_bool 0 (inject_Z count) = true) as ->
    by (apply Qle_bool_iff; unfold Qle; simpl; lia).
  rewrite Qeq_bool_inject_Z.
  destruct (Z.eqb_spec factor 0) as [|_]; [lia|].
  assert (Qle_bool 0 (inject_Z factor) = true) as ->
    by (apply Qle_bool_iff; unfold Qle; simpl; lia).
  done.
Qed.

Lemma ratio_nonneg count days factor :
  0 <= count -> 0 < days -> 0 <= factor ->
  (0 <= inject_Z count / inject_Z days * inject_Z factor)%Q.
Proof.
  intros Hc Hd Hf. apply Qmult_le_0_compat.
  - apply Qle_shift_div_l; [unfold Qlt; simpl; lia|].
    rewrite Qmult_0_l. unfold Qle. simpl. lia.
  - unfold Qle. simpl. lia.
Qed.

(** X8.  The weekly average of [getAnalytics]: 0 without completions; otherwise
    the records per whole day since creation times 7, which is a finite
    number that is not negative for a habit created in the past, and
    [Infinity] for a habit created less than a day in the future. *)
Theorem averagePerWeek_cases (tza now : Z) (h : Habit.t) :
  let a := Analytics.averagePerWeek (getAnalytics tza now h) in
  let n := Z.of_nat (length (completions h)) in
  (completions h = [] -> a = Finite 0) /\
  (completions h <> [] -> createdAt h <= now ->
   exists q, a = Finite q /\ (0 <= q)%Q /\
             (q == inject_Z n / inject_Z (getDaysSinceCreation now h) * 7)%Q) /\
  (completions h <> [] -> - msPerDay <= now - createdAt h < 0 ->
   a = PosInfinity).
Proof.
  intros a n. unfold a, getAnalytics. simpl. fold n.
  fold (scaledRatio n (getDaysSinceCreation now h) 7).
  destruct (daysSinceCreation_facts now h) as (_ & Hpast & Hzero).
  repeat split.
  - intros E. unfold n. by rewrite E.
  - intros Hne Hc. specialize (Hpast Hc).
    assert (0 < n) by (unfold n; destruct (completions h); simpl; [done|lia]).
    destruct (Z.ltb_spec 0 n); [|lia].
    destruct (scaledRatio_finite n (getDaysSinceCreation now h) 7 ltac:(lia))
      as (q & Hq & Hv).
    exists q. split; [done|]. split; [|done].
    rewrite Hv. apply (ratio_nonneg n _ 7); lia.
  - intros Hne Hc. apply Hzero in Hc.
    assert (0 < n) by (unfold n; destruct (completions h); simpl; [done|lia]).
    destruct (Z.ltb_spec 0 n); [|lia].
    rewrite Hc. apply scaledRatio_zero_days; lia.
Qed.

(** A habit dated half a day ahead of the clock, with one completion. *)
Lemma averagePerWeek_cases_witness :
  let h := set_completions [recordOf 0]
             (Habit.new 0 "r" (toJSON (Habit.new 43200000 "r" no_config))) in
  Analytics.averagePerWeek (getAnalytics 0 0 h) = PosInfinity.
Proof.
  intros h.
  pose proof (averagePerWeek_cases 0 0 h) as (_ & _ & Hfuture).
  apply Hfuture.
  - discriminate.
  - split; [vm_compute; discriminate|reflexivity].
Defined.
End AnalyticsFacts.

Section RateBounds.

(** With one record per day the period holds at most one record for each of
    its days: [days] of them, and one more at an exact midnight. *)
Lemma window_count_le now days h :
  NoDup (map date (completions h)) ->
  0 <= days ->
  Z.of_nat (length (List.filter (inWindow now days) (completions h)))
  <= (if TimeWithinDay now =? 0 then days + 1 else days).
Proof.
  intros Hnd Hd.
  set (n := if TimeWithinDay now =? 0 then days + 1 else days).
  assert (map date (List.filter (inWindow now days) (completions h))
          ⊆+ consecutiveDays (toISODate now) (Z.to_nat n)) as Hsub.
  { apply NoDup_submseteq; [by apply dates_filter_NoDup|].
    intros d. rewrite elem_of_dates_filter, elem_of_consecutiveDays.
    intros (c & _ & Hw & <-). unfold inWindow in Hw. unfold n.
    destruct (Z.eqb_spec (TimeWithinDay now) 0);
      apply andb_true_iff in Hw as [Hlo Hhi%Z.leb_le];
      [apply Z.leb_le in Hlo|apply Z.ltb_lt in Hlo]; lia. }
  apply submseteq_length in Hsub.
  rewrite length_map, consecutiveDays_length in Hsub.
  unfold n in *. destruct (TimeWithinDay now =? 0); lia.
Qed.

Lemma ratio_le_percent count days bound :
  0 < days -> count <= bound ->
  (inject_Z count / inject_Z days * 100
   <= inject_Z bound / inject_Z days * 100)%Q.
Proof.
  intros Hd Hc. apply Qmult_le_compat_r; [|done].
  unfold Qdiv. apply Qmult_le_compat_r.
  - unfold Qle. simpl. lia.
  - apply Qinv_le_0_compat. unfold Qle. simpl. lia.
Qed.

(** X9.  In a zone of constant offset [tza] (so that the window starts
    [days * msPerDay] before [now]) and with one record per day, the
    completion rate over a positive number of days is a percentage between 0
    and 100, except at an exact UTC midnight, where it can reach
    [(days + 1) / days * 100]. *)
Theorem completion_rate_bounds (tza now days : Z) (h : Habit.t) :
  NoDup (map date (completions h)) ->
  1 <= days ->
  exists q, getCompletionRate tza now days h = Finite q /\
            (0 <= q)%Q /\
            (TimeWithinDay now <> 0 -> (q <= 100)%Q) /\
            (q <= inject_Z (days + 1) / inject_Z days * 100)%Q.
Proof.
  intros Hnd Hd.
  destruct (rate_exact tza now days h ltac:(lia)) as (q & Hq & Hv).
  pose proof (window_count_le now days h Hnd ltac:(lia)) as Hle.
  exists q. split; [done|]. rewrite Hv. split; [|split].
  - apply (ratio_nonneg _ days 100); lia.
  - intros Hmid. destruct (Z.eqb_spec (TimeWithinDay now) 0); [done|].
    eapply Qle_trans; [apply (ratio_le_percent _ days days); lia|].
    assert (inject_Z days / inject_Z days * 100 == 100)%Q as ->;
      [|apply Qle_refl].
    unfold Qdiv. rewrite Qmult_inv_r; [reflexivity|].
    unfold Qeq. simpl. lia.
  - apply ratio_le_percent; [lia|].
    destruct (TimeWithinDay now =? 0); lia.
Qed.

Lemma completion_rate_bounds_witness :
  exists q,
    getCompletionRate 0 (5 * msPerDay + 1) 3 (habitWithDays [2; 3; 5])
    = Finite q /\ (0 <= q)%Q /\
    (TimeWithinDay (5 * msPerDay + 1) <> 0 -> (q <= 100)%Q) /\
    (q <= inject_Z (3 + 1) / inject_Z 3 * 100)%Q.
Proof.
  apply completion_rate_bounds.
  - apply (bool_decide_unpack _). vm_compute. exact I.
  - lia.
Defined.

(** X10.  The detour of [getCompletionRate] through the local day of the month
    cancels: the rate does not depend on the offset of the host's zone. *)
Theorem completion_rate_zone_independent (tza tza' now days : Z)
    (h : Habit.t) :
  completionsInPeriod tza now days h = completionsInPeriod tza' now days h /\
  getCompletionRate tza now days h = getCompletionRate tza' now days h /\
  getAnalytics tza now h = getAnalytics tza' now h.
Proof.
  assert (forall d, getCompletionRate tza now d h
                    = getCompletionRate tza' now d h) as Hr.
  { intros d. by rewrite !getCompletionRate_percentage. }
  split; [by rewrite !completionsInPeriod_window|]. split; [apply Hr|].
  unfold getAnalytics. by rewrite !Hr.
Qed.
End RateBounds.

(** * Further properties of the repository *)

Section MapFacts.
Import HabitTracker.

Lemma Map_get_None id m : Map_get id m = None <-> id ∉ map fst m.
Proof.
  induction m as [|[k x] r IH]; simpl.
  - split; [intros _ Hin; inversion Hin|done].
  - rewrite not_elem_of_cons. destruct (decide (k = id)) as [->|Hne].
    + split; [done|]. by intros [? _].
    + rewrite IH. split; [by split|by intros [_ ?]].
Qed.

Lemma Map_get_elem id m h : Map_get id m = Some h -> (id, h) ∈ m.
Proof.
  induction m as [|[k x] r IH]; simpl; [done|].
  destruct (decide (k = id)) as [->|Hne].
  - intros [= ->]. by left.
  - intros Hg. right. by apply IH.
Qed.

Lemma Map_has_get id m : Map_has id m = true <-> is_Some (Map_get id m).
Proof.
  unfold Map_has. induction m as [|[k x] r IH]; simpl.
  - split; [done|]. by intros [? ?].
  - destruct (decide (k = id)) as [->|Hne].
    + rewrite bool_decide_eq_true_2 by done. simpl. split; [eauto|done].
    + rewrite bool_decide_eq_false_2 by done. simpl. apply IH.
Qed.

Lemma Map_get_set_eq id h m : Map_get id (Map_set id h m) = Some h.
Proof.
  induction m as [|[k x] r IH]; simpl.
  - by rewrite decide_True.
  - destruct (decide (k = id)) as [->|Hne]; simpl.
    + by rewrite decide_True.
    + by rewrite decide_False.
Qed.

Lemma Map_get_set_ne id k h m :
  k <> id -> Map_get k (Map_set id h m) = Map_get k m.
Proof.
  intros Hk. induction m as [|[k' x] r IH]; simpl.
  - by rewrite decide_False.
  - destruct (decide (k' = id)) as [->|Hne]; simpl.
    + by rewrite !decide_False.
    + destruct (decide (k' = k)); [done|apply IH].
Qed.

Lemma Map_set_fresh id h m :
  Map_get id m = None -> Map_set id h m = m ++ [(id, h)].
Proof.
  induction m as [|[k x] r IH]; simpl; [done|].
  destruct (decide (k = id)); [done|]. intros Hg. by rewrite IH.
Qed.

Lemma Map_set_keys id h m :
  is_Some (Map_get id m) -> map fst (Map_set id h m) = map fst m.
Proof.
  induction m as [|[k x] r IH]; simpl; [by intros [? ?]|].
  destruct (decide (k = id)); simpl; [done|]. intros Hg. by rewrite IH.
Qed.

Lemma Map_put_keys id h m : map fst (Map_put id h m) = map fst m.
Proof.
  induction m as [|[k x] r IH]; simpl; [done|].
  destruct (decide (k = id)); simpl; [done|]. by rewrite IH.
Qed.

Lemma Map_set_NoDup id h m :
  NoDup (map fst m) -> NoDup (map fst (Map_set id h m)).
Proof.
  intros Hnd. destruct (Map_get id m) as [x|] eqn:Hg.
  - by rewrite Map_set_keys.
  - rewrite Map_set_fresh, map_app by done. simpl.
    apply NoDup_app. split; [done|]. split; [|apply NoDup_singleton].
    intros k Hk ->%list_elem_of_singleton. by apply Map_get_None in Hg.
Qed.

Lemma Map_delete_absent id m : Map_get id m = None -> Map_delete id m = m.
Proof.
  induction m as [|[k x] r IH]; simpl; [done|].
  destruct (decide (k = id)); [done|]. intros Hg. by rewrite IH.
Qed.

Lemma Map_delete_keys id m :
  NoDup (map fst m) ->
  map fst (Map_delete id m) = filter (fun k => k <> id) (map fst m).
Proof.
  induction m as [|[k x] r IH]; simpl; [done|].
  rewrite NoDup_cons. intros [Hk Hnd]. rewrite filter_cons.
  destruct (decide (k = id)) as [->|Hne].
  - rewrite decide_False by (intros Hc; by apply Hc).
    symmetry. clear IH Hnd. induction (map fst r) as [|k' ks IHk]; [done|].
    apply not_elem_of_cons in Hk as [Hne Hk].
    rewrite filter_cons_True by congruence. f_equal. by apply IHk.
  - rewrite decide_True by done. simpl. by rewrite IH.
Qed.

Lemma Map_get_delete_ne id k m :
  k <> id -> Map_get k (Map_delete id m) = Map_get k m.
Proof.
  intros Hk. induction m as [|[k' x] r IH]; simpl; [done|].
  destruct (decide (k' = id)) as [->|Hne]; simpl.
  - by rewrite decide_False.
  - destruct (decide (k' = k)); [done|apply IH].
Qed.

Lemma Map_get_delete_eq id m :
  NoDup (map fst m) -> Map_get id (Map_delete id m) = None.
Proof.
  intros Hnd. apply Map_get_None. rewrite Map_delete_keys by done.
  rewrite list_elem_of_filter. by intros [? _].
Qed.

Lemma Map_delete_NoDup id m :
  NoDup (map fst m) -> NoDup (map fst (Map_delete id m)).
Proof. intros Hnd. rewrite Map_delete_keys by done. by apply NoDup_filter. Qed.

Lemma Map_delete_set_fresh id h m :
  Map_get id m = None -> Map_delete id (Map_set id h m) = m.
Proof.
  induction m as [|[k x] r IH]; simpl.
  - by rewrite decide_True.
  - destruct (decide (k = id)); [done|]. intros Hg. simpl.
    rewrite decide_False by done. by rewrite IH.
Qed.

Lemma Map_delete_length id m :
  is_Some (Map_get id m) -> S (length (Map_delete id m)) = length m.
Proof.
  induction m as [|[k x] r IH]; simpl; [by intros [? ?]|].
  destruct (decide (k = id)); simpl; [done|]. intros Hg. by rewrite IH.
Qed.
End MapFacts.

(** X12.  [addHabit] returns the habit it built and files it under the habit's
    id: looking that id up gives the habit, every other id is as before,
    and the storage holds the new collection.  A fresh id goes to the end of
    the collection; an id already there has its habit replaced, in place and
    without notice. *)
Theorem addHabit_effect (JSON_stringify : HabitTracker.snapshot -> string)
    (now : Z) (rnd : string) (habitData : Habit.config)
    (tr : HabitTracker.t) (localStorage : gmap string string) :
  let result :=
    HabitTracker.addHabit JSON_stringify now rnd habitData tr localStorage in
  let tr' := fst (fst result) in
  let habit := snd result in
  habit = Habit.new now rnd habitData /\
  HabitTracker.getHabit (id habit) tr' = Some habit /\
  (forall k, k <> id habit ->
             HabitTracker.getHabit k tr' = HabitTracker.getHabit k tr) /\
  HabitTracker.categories tr' = HabitTracker.categories tr /\
  snd (fst result) !! HabitTracker.storageKey
  = Some (JSON_stringify (HabitTracker.snapshotOf tr')) /\
  (HabitTracker.getHabit (id habit) tr = None ->
   HabitTracker.habits tr' = HabitTracker.habits tr ++ [(id habit, habit)]) /\
  (is_Some (HabitTracker.getHabit (id habit) tr) ->
   map fst (HabitTracker.habits tr') = map fst (HabitTracker.habits tr)).
Proof.
  simpl. unfold HabitTracker.getHabit. simpl. repeat split.
  - apply Map_get_set_eq.
  - intros k Hk. by apply Map_get_set_ne.
  - unfold HabitTracker.saveToStorage. apply lookup_insert_eq.
  - apply Map_set_fresh.
  - apply Map_set_keys.
Qed.

(** A habit with a fresh id goes to the end of the collection. *)
Lemma addHabit_effect_witness :
  let tr := {| HabitTracker.habits := [("a", habitWithDays [3])];
               HabitTracker.categories := ["general"] |} in
  let result :=
    HabitTracker.addHabit (fun _ => "text") 0 "r" (toJSON (habitWithDays []))
                          tr ∅ in
  HabitTracker.habits (fst (fst result))
  = HabitTracker.habits tr ++ [(id (snd result), snd result)].
Proof.
  intros tr result.
  pose proof (addHabit_effect (fun _ => "text") 0 "r"
                (toJSON (habitWithDays [])) tr ∅)
    as (_ & _ & _ & _ & _ & Hfresh & _).
  apply Hfresh. reflexivity.
Defined.

(** X13.  [deleteHabit] returns true exactly when the id is in the collection;
    then the id is gone, every other id is as before, the collection is one
    habit shorter and the storage holds it.  Otherwise nothing changes and
    nothing is written. *)
Theorem deleteHabit_effect (JSON_stringify : HabitTracker.snapshot -> string)
    (id : string) (tr : HabitTracker.t) (localStorage : gmap string string) :
  NoDup (map fst (HabitTracker.habits tr)) ->
  let result := HabitTracker.deleteHabit JSON_stringify id tr localStorage in
  let tr' := fst (fst result) in
  (snd result = true <-> is_Some (HabitTracker.getHabit id tr)) /\
  HabitTracker.getHabit id tr' = None /\
  (forall k, k <> id ->
             HabitTracker.getHabit k tr' = HabitTracker.getHabit k tr) /\
  (snd result = true ->
   S (length (HabitTracker.habits tr')) = length (HabitTracker.habits tr) /\
   snd (fst result) !! HabitTracker.storageKey
   = Some (JSON_stringify (HabitTracker.snapshotOf tr'))) /\
  (snd result = false -> tr' = tr /\ snd (fst result) = localStorage).
Proof.
  intros Hnd. unfold HabitTracker.deleteHabit, HabitTracker.getHabit.
  pose proof (Map_has_get id (HabitTracker.habits tr)) as Hhas.
  destruct (HabitTracker.Map_has id (HabitTracker.habits tr)) eqn:E; simpl.
  - repeat split; try done.
    + intros _. by apply Hhas.
    + by apply Map_get_delete_eq.
    + intros k Hk. by apply Map_get_delete_ne.
    + apply Map_delete_length. by apply Hhas.
    + unfold HabitTracker.saveToStorage. apply lookup_insert_eq.
  - assert (HabitTracker.Map_get id (HabitTracker.habits tr) = None) as Hg.
    { destruct (HabitTracker.Map_get id (HabitTracker.habits tr)) eqn:Hg;
        [|done].
      assert (false = true); [|done]. apply Hhas. eauto. }
    rewrite Map_delete_absent by done. repeat split; try done.
    + intros Hs. rewrite Hg in Hs. by destruct Hs.
    + by destruct tr.
Qed.

Lemma deleteHabit_effect_witness :
  let tr := {| HabitTracker.habits :=
                 [("a", habitWithDays [3]); ("b", habitWithDays [])];
               HabitTracker.categories := ["general"] |} in
  HabitTracker.getHabit "a"
    (fst (fst (HabitTracker.deleteHabit (fun _ => "text") "a" tr ∅)))
  = None.
Proof.
  intros tr.
  apply (deleteHabit_effect (fun _ => "text") "a" tr ∅).
  apply (bool_decide_unpack _). vm_compute. exact I.
Defined.

(** X14.  Deleting a habit right after adding it under a fresh id restores the
    collection. *)
Theorem addHabit_deleteHabit (JSON_stringify : HabitTracker.snapshot -> string)
    (now : Z) (rnd : string) (habitData : Habit.config)
    (tr : HabitTracker.t) (localStorage : gmap string string) :
  let added :=
    HabitTracker.addHabit JSON_stringify now rnd habitData tr localStorage in
  HabitTracker.getHabit (id (snd added)) tr = None ->
  let deleted :=
    HabitTracker.deleteHabit JSON_stringify (id (snd added))
                             (fst (fst added)) (snd (fst added)) in
  snd deleted = true /\
  fst (fst deleted) = tr /\
  snd (fst deleted) !! HabitTracker.storageKey
  = Some (JSON_stringify (HabitTracker.snapshotOf tr)).
Proof.
  intros added Hfresh deleted.
  set (habit := snd added) in *.
  assert (fst (fst added)
          = HabitTracker.set_habits
              (HabitTracker.Map_set (id habit) habit (HabitTracker.habits tr))
              tr) as Hadded by reflexivity.
  unfold deleted, HabitTracker.deleteHabit. rewrite Hadded.
  change (HabitTracker.habits (HabitTracker.set_habits ?m ?t)) with m.
  assert (HabitTracker.Map_has (id habit)
            (HabitTracker.Map_set (id habit) habit (HabitTracker.habits tr))
          = true) as ->.
  { apply Map_has_get. rewrite Map_get_set_eq. eauto. }
  rewrite Map_delete_set_fresh by done.
  assert (HabitTracker.set_habits (HabitTracker.habits tr)
            (HabitTracker.set_habits
               (HabitTracker.Map_set (id habit) habit (HabitTracker.habits tr))
               tr)
          = tr) as -> by (by destruct tr).
  repeat split. unfold HabitTracker.saveToStorage. apply lookup_insert_eq.
Qed.

Lemma addHabit_deleteHabit_witness :
  let tr := {| HabitTracker.habits := [("a", habitWithDays [3])];
               HabitTracker.categories := ["general"] |} in
  let added := HabitTracker.addHabit (fun _ => "text") 0 "r" no_config tr ∅ in
  fst (fst (HabitTracker.deleteHabit (fun _ => "text") (id (snd added))
              (fst (fst added)) (snd (fst added))))
  = tr.
Proof.
  intros tr added.
  apply (addHabit_deleteHabit (fun _ => "text") 0 "r" no_config tr ∅).
  reflexivity.
Defined.

Section StateFacts.
Import HabitTracker.
Variable JSON_stringify : snapshot -> string.

Lemma Set_add_NoDup c s : NoDup s -> NoDup (Set_add c s).
Proof.
  intros Hnd. unfold Set_add.
  destruct (existsb (String.eqb c) s) eqn:E; [done|].
  apply NoDup_app. split; [done|]. split; [|apply NoDup_singleton].
  intros x Hx ->%list_elem_of_singleton.
  assert (existsb (String.eqb c) s = true); [|congruence].
  apply existsb_exists. exists c. rewrite <- list_elem_of_In.
  split; [done|apply String.eqb_refl].
Qed.

Lemma Set_add_elem c s x : x ∈ Set_add c s <-> x ∈ s \/ x = c.
Proof.
  unfold Set_add. destruct (existsb (String.eqb c) s) eqn:E.
  - apply existsb_exists in E as (y & Hy & Heq).
    apply String.eqb_eq in Heq as <-. apply list_elem_of_In in Hy.
    split; [by left|]. by intros [?| ->].
  - rewrite elem_of_app, list_elem_of_singleton. done.
Qed.

Lemma Map_put_Forall (P : string * Habit.t -> Prop) id h m :
  Forall P m -> (forall k x, (k, x) ∈ m -> P (k, x) -> k = id -> P (k, h)) ->
  Forall P (Map_put id h m).
Proof.
  induction 1 as [|[k x] r Hx Hr IH]; simpl; intros Hp; [done|].
  destruct (decide (k = id)).
  - constructor; [|done]. eapply Hp; [by left|done|done].
  - constructor; [done|]. apply IH. intros k' x' Hin. apply Hp. by right.
Qed.

Lemma Map_delete_Forall (P : string * Habit.t -> Prop) id m :
  Forall P m -> Forall P (Map_delete id m).
Proof.
  induction 1 as [|[k x] r Hx Hr IH]; simpl; [done|].
  destruct (decide (k = id)); [done|]. by constructor.
Qed.

Lemma Map_set_Forall (P : string * Habit.t -> Prop) id h m :
  Forall P m -> P (id, h) ->
  (forall k x, P (k, x) -> k = id -> P (k, h)) ->
  Forall P (Map_set id h m).
Proof.
  induction 1 as [|[k x] r Hx Hr IH]; simpl; intros Hnew Hp.
  - by repeat constructor.
  - destruct (decide (k = id)).
    + constructor; [|done]. by eapply Hp.
    + constructor; [done|]. by apply IH.
Qed.

Lemma NoDup_keys_unique (m : list (string * Habit.t)) k x y :
  NoDup (map fst m) -> (k, x) ∈ m -> (k, y) ∈ m -> x = y.
Proof.
  induction m as [|[k' z] r IH]; simpl; [by intros _ ?%elem_of_nil|].
  rewrite NoDup_cons. intros [Hk Hnd] Hx Hy.
  assert (forall v, (k', v) ∈ r -> False) as Hno.
  { intros v Hv. apply Hk. apply list_elem_of_fmap. by exists (k', v). }
  apply elem_of_cons in Hx as [Hx|Hx];
    apply elem_of_cons in Hy as [Hy|Hy]; simplify_eq; try done.
  - by destruct (Hno y).
  - by destruct (Hno x).
  - by apply IH.
Qed.

Lemma step_wellKeyed op (w : world) :
  wellKeyed (fst w) -> wellKeyed (fst (step JSON_stringify op w)).
Proof.
  intros (Hk & Hc & Hid). destruct w as [tr ls]. simpl in *.
  destruct op as [now rnd data|now id dt|id|c]; simpl.
  - split; [by apply Map_set_NoDup|]. split; [done|].
    apply Map_set_Forall; [done| |].
    + simpl. split; [done|apply new_id_truthy].
    + intros k x [Hkx Hne] ->. simpl. split; [done|apply new_id_truthy].
  - unfold completeHabit. destruct (getHabit id tr) as [habit|] eqn:Hg;
      [|done].
    destruct (Habit.complete now dt habit) as [habit' ok] eqn:Hcmp.
    assert (Habit.id habit' = Habit.id habit) as Hsame.
    { pose proof (complete_id now dt habit) as E. by rewrite Hcmp in E. }
    assert (wellKeyed (set_habits (Map_put id habit' (habits tr)) tr)) as Hw.
    { split; [simpl; by rewrite Map_put_keys|]. split; [done|]. simpl.
      apply Map_put_Forall; [done|]. simpl.
      intros k x Hin [Hkx Hne] ->. split; [|done].
      rewrite Hsame.
      assert (x = habit) as ->; [|done].
      unfold getHabit in Hg. apply Map_get_elem in Hg.
      by eapply NoDup_keys_unique. }
    by destruct ok.
  - unfold deleteHabit.
    assert (wellKeyed (set_habits (Map_delete id (habits tr)) tr)) as Hw.
    { split; [simpl; by apply Map_delete_NoDup|]. split; [done|].
      by apply Map_delete_Forall. }
    by destruct (Map_has id (habits tr)).
  - split; [done|]. split; [by apply Set_add_NoDup|done].
Qed.

Lemma step_inSync op (w : world) :
  (fst (step JSON_stringify op w) <> fst w ->
   inSync JSON_stringify (step JSON_stringify op w)) /\
  (inSync JSON_stringify w ->
   inSync JSON_stringify (step JSON_stringify op w)).
Proof.
  destruct w as [tr ls]. unfold inSync.
  destruct op as [now rnd data|now id dt|id|c]; simpl.
  - split; intros _; unfold saveToStorage; apply lookup_insert_eq.
  - unfold completeHabit. destruct (getHabit id tr) as [habit|] eqn:Hg;
      simpl; [|by split].
    destruct (Habit.isCompletedToday dt habit) eqn:Hdone.
    + rewrite complete_done by done. simpl.
      unfold getHabit in Hg. rewrite Map_put_same by done.
      assert (set_habits (habits tr) tr = tr) as -> by (by destruct tr).
      by split.
    + rewrite complete_fresh by done. simpl.
      split; intros _; unfold saveToStorage; apply lookup_insert_eq.
  - unfold deleteHabit. destruct (Map_has id (habits tr)) eqn:E; simpl.
    + split; intros _; unfold saveToStorage; apply lookup_insert_eq.
    + assert (Map_get id (habits tr) = None) as Hg.
      { destruct (Map_get id (habits tr)) eqn:Hg; [|done].
        assert (Map_has id (habits tr) = true); [|congruence].
        apply Map_has_get. eauto. }
      rewrite Map_delete_absent by done.
      assert (set_habits (habits tr) tr = tr) as -> by (by destruct tr).
      by split.
  - split; intros _; unfold saveToStorage; apply lookup_insert_eq.
Qed.
End StateFacts.

Lemma run_wellKeyed (JSON_stringify : HabitTracker.snapshot -> string)
    (ops : list operation) (w : world) :
  wellKeyed (fst w) -> wellKeyed (fst (run JSON_stringify ops w)).
Proof.
  revert w. induction ops as [|op ops IH]; intros w Hw; simpl; [done|].
  apply IH. by apply step_wellKeyed.
Qed.

(** X15.  Along every sequence of tracker operations the collection keeps its
    keys and categories distinct, every habit filed under its own id, and
    no id empty; the empty tracker starts that way. *)
Theorem tracker_wellKeyed (JSON_stringify : HabitTracker.snapshot -> string)
    (ops : list operation) (w : world) :
  wellKeyed {| HabitTracker.habits := []; HabitTracker.categories := [] |} /\
  (wellKeyed (fst w) -> wellKeyed (fst (run JSON_stringify ops w))).
Proof.
  split; [repeat split; constructor|]. apply run_wellKeyed.
Qed.

Lemma tracker_wellKeyed_witness :
  wellKeyed
    (fst (run (fun _ => "text")
              [AddHabit 0 "r" no_config; AddCategory "health";
               CompleteHabit 5 "habit_0_r" 5; DeleteHabit "zzz"]
              ({| HabitTracker.habits := []; HabitTracker.categories := [] |},
               ∅))).
Proof.
  apply (tracker_wellKeyed (fun _ => "text")).
  repeat split; constructor.
Defined.

(** X16.  No change of the tracker goes unsaved: an operation that changes the
    tracker leaves the storage holding the new collection, and once memory
    and storage agree they agree after every sequence of operations. *)
Theorem tracker_inSync (JSON_stringify : HabitTracker.snapshot -> string)
    (op : operation) (ops : list operation) (w : world) :
  (fst (step JSON_stringify op w) <> fst w ->
   inSync JSON_stringify (step JSON_stringify op w)) /\
  (inSync JSON_stringify w ->
   inSync JSON_stringify (run JSON_stringify ops w)).
Proof.
  split; [apply step_inSync|].
  revert w. induction ops as [|op' ops IH]; intros w Hw; simpl; [done|].
  apply IH. by apply step_inSync.
Qed.

Lemma tracker_inSync_witness :
  inSync (fun _ => "text")
    (step (fun _ => "text") (AddCategory "health")
          ({| HabitTracker.habits := []; HabitTracker.categories := [] |}, ∅)).
Proof.
  pose proof (tracker_inSync (fun _ => "text") (AddCategory "health") []
                ({| HabitTracker.habits := []; HabitTracker.categories := [] |},
                 ∅)) as [Hchanged _].
  apply Hchanged. vm_compute. discriminate.
Defined.

(** X17.  [addCategory] keeps the categories there are, in their order, puts a new
    one last and leaves a known one where it is; adding twice is adding
    once, and no category is ever listed twice.  The habits are not
    touched, and the storage is written in either case. *)
Theorem addCategory_effect (JSON_stringify : HabitTracker.snapshot -> string)
    (category : string) (tr : HabitTracker.t)
    (localStorage : gmap string string) :
  let result :=
    HabitTracker.addCategory JSON_stringify category tr localStorage in
  let tr' := fst result in
  HabitTracker.habits tr' = HabitTracker.habits tr /\
  (forall c, c ∈ HabitTracker.getCategories tr' <->
             c ∈ HabitTracker.getCategories tr \/ c = category) /\
  (category ∈ HabitTracker.getCategories tr ->
   HabitTracker.getCategories tr' = HabitTracker.getCategories tr) /\
  (category ∉ HabitTracker.getCategories tr ->
   HabitTracker.getCategories tr'
   = HabitTracker.getCategories tr ++ [category]) /\
  (NoDup (HabitTracker.getCategories tr) ->
   NoDup (HabitTracker.getCategories tr')) /\
  fst (HabitTracker.addCategory JSON_stringify category tr' (snd result))
  = tr' /\
  snd result !! HabitTracker.storageKey
  = Some (JSON_stringify (HabitTracker.snapshotOf tr')).
Proof.
  simpl. unfold HabitTracker.getCategories. simpl.
  assert (Hcase : forall s,
             (category ∈ s -> HabitTracker.Set_add category s = s) /\
             (category ∉ s -> HabitTracker.Set_add category s
                              = s ++ [category])).
  { intros s. unfold HabitTracker.Set_add.
    destruct (existsb (String.eqb category) s) eqn:E.
    - split; [done|]. intros Hn. destruct Hn.
      apply existsb_exists in E as (y & Hy & Heq).
      apply String.eqb_eq in Heq as <-. by apply list_elem_of_In.
    - split; [|done]. intros Hin.
      assert (existsb (String.eqb category) s = true); [|congruence].
      apply existsb_exists. exists category. rewrite <- list_elem_of_In.
      split; [done|apply String.eqb_refl]. }
  split; [done|]. split; [apply Set_add_elem|].
  split; [apply Hcase|]. split; [apply Hcase|].
  split; [apply Set_add_NoDup|]. split.
  - unfold HabitTracker.set_categories. simpl. f_equal.
    apply Hcase. apply Set_add_elem. by right.
  - unfold HabitTracker.saveToStorage. apply lookup_insert_eq.
Qed.

Lemma addCategory_effect_witness :
  let tr := {| HabitTracker.habits := [];
               HabitTracker.categories := ["health"; "general"] |} in
  HabitTracker.getCategories
    (fst (HabitTracker.addCategory (fun _ => "text") "health" tr ∅))
  = HabitTracker.getCategories tr.
Proof.
  intros tr.
  pose proof (addCategory_effect (fun _ => "text") "health" tr ∅)
    as (_ & _ & Hknown & _).
  apply Hknown. apply (bool_decide_unpack _). vm_compute. exact I.
Defined.

Section ViewFacts.
Import HabitTracker.

(** A habit found under a key is at a definite place of the collection, and
    [Map_put] changes that place only. *)
Lemma Map_get_split id m h :
  Map_get id m = Some h ->
  exists m1 m2, m = m1 ++ (id, h) :: m2 /\
                forall h', Map_put id h' m = m1 ++ (id, h') :: m2.
Proof.
  induction m as [|[k x] r IH]; [done|].
  cbn [Map_get Map_put]. destruct (decide (k = id)) as [->|Hne].
  - intros [= ->]. by exists [], r.
  - intros Hg. destruct (IH Hg) as (m1 & m2 & -> & Hput).
    exists ((k, x) :: m1), m2. split; [done|]. intros h'.
    by rewrite Hput.
Qed.

Lemma complete_frame now dt h :
  Habit.id (fst (complete now dt h)) = Habit.id h /\
  Habit.isActive (fst (complete now dt h)) = Habit.isActive h /\
  Habit.category (fst (complete now dt h)) = Habit.category h /\
  Habit.name (fst (complete now dt h)) = Habit.name h /\
  Habit.createdAt (fst (complete now dt h)) = Habit.createdAt h.
Proof.
  destruct (isCompletedToday dt h) eqn:E.
  - by rewrite complete_done.
  - rewrite complete_fresh by done. simpl.
    set (pushed := set_completions _ h).
    assert (completions pushed <> []) as Hne.
    { unfold pushed. simpl. intros Hnil. by apply app_eq_nil in Hnil as [_ ?]. }
    by destruct (updateStreak_nonempty now pushed Hne) as (? & _ & ->).
Qed.
End ViewFacts.

Lemma completeHabit_tracker
    (JSON_stringify : HabitTracker.snapshot -> string) now id dt tr ls :
  fst (fst (HabitTracker.completeHabit JSON_stringify now id dt tr ls))
  = match HabitTracker.getHabit id tr with
    | Some habit =>
        HabitTracker.set_habits
          (HabitTracker.Map_put id (fst (complete now dt habit))
                                (HabitTracker.habits tr)) tr
    | None => tr
    end.
Proof.
  unfold HabitTracker.completeHabit.
  destruct (HabitTracker.getHabit id tr) as [habit|]; [|done].
  destruct (complete now dt habit) as [habit' ok]. by destruct ok.
Qed.

(** X18.  [completeHabit] neither adds, removes nor reorders habits, and changes
    no habit's id, activity or category: the keys, the categories and the
    ids listed by every view are the same afterwards. *)
Theorem completeHabit_frame (JSON_stringify : HabitTracker.snapshot -> string)
    (now : Z) (id : string) (dt : Z) (category : string)
    (tr : HabitTracker.t) (localStorage : gmap string string) :
  let tr' :=
    fst (fst (HabitTracker.completeHabit JSON_stringify now id dt tr
                                         localStorage)) in
  map fst (HabitTracker.habits tr') = map fst (HabitTracker.habits tr) /\
  HabitTracker.getCategories tr' = HabitTracker.getCategories tr /\
  map Habit.id (HabitTracker.getAllHabits tr')
  = map Habit.id (HabitTracker.getAllHabits tr) /\
  map Habit.id (HabitTracker.getActiveHabits tr')
  = map Habit.id (HabitTracker.getActiveHabits tr) /\
  map Habit.id (HabitTracker.getHabitsByCategory category tr')
  = map Habit.id (HabitTracker.getHabitsByCategory category tr).
Proof.
  intros tr'. unfold tr'. rewrite completeHabit_tracker.
  destruct (HabitTracker.getHabit id tr) as [habit|] eqn:Hg; [|done].
  unfold HabitTracker.getHabit in Hg.
  destruct (Map_get_split _ _ _ Hg) as (m1 & m2 & Hm & Hput).
  destruct (complete_frame now dt habit) as (Hid & Hact & Hcat & _).
  set (habit' := fst (complete now dt habit)) in *.
  unfold HabitTracker.getCategories, HabitTracker.getActiveHabits,
    HabitTracker.getHabitsByCategory, HabitTracker.getAllHabits,
    HabitTracker.getHabit.
  simpl. rewrite Hput, Hm.
  rewrite !map_app. simpl. rewrite !List.filter_app. simpl.
  rewrite Hact, Hcat, !map_app.
  repeat split.
  - by rewrite Hid.
  - destruct (Habit.isActive habit); simpl; by rewrite ?Hid.
  - destruct (String.eqb (Habit.category habit) category); simpl;
      by rewrite ?Hid.
Qed.

Section StatsFacts.
Import HabitTracker.

Lemma length_filter_le {A} (p : A -> bool) (l : list A) :
  (length (List.filter p l) <= length l)%nat.
Proof. induction l as [|x l IH]; simpl; [lia|]. destruct (p x); simpl; lia. Qed.

Lemma flagged_length {A} (p : A -> bool) (l : list A) :
  length (List.filter snd (map (fun x => (x, p x)) l))
  = length (List.filter p l).
Proof.
  induction l as [|x l IH]; simpl; [done|]. destruct (p x); simpl; lia.
Qed.
End StatsFacts.

(** X19.  The list for today and the dashboard agree: [getTodaysHabits] lists the
    active habits in their order, each with the flag that
    [isCompletedToday] gives, as many as [totalHabits] counts, and as many
    of them flagged as [completedToday] counts. *)
Theorem getTodaysHabits_stats (now : Z) (tr : HabitTracker.t) :
  let todays := HabitTracker.getTodaysHabits now tr in
  let s := HabitTracker.getOverallStats now tr in
  map fst todays = HabitTracker.getActiveHabits tr /\
  (forall habit flag, (habit, flag) ∈ todays ->
                      isActive habit = true /\
                      flag = isCompletedToday now habit) /\
  Z.of_nat (length todays) = HabitTracker.totalHabits s /\
  Z.of_nat (length (List.filter snd todays)) = HabitTracker.completedToday s.
Proof.
  intros todays s. unfold todays, HabitTracker.getTodaysHabits.
  split; [|split; [|split]].
  - rewrite map_map. simpl. apply map_id.
  - intros habit flag Hin. apply list_elem_of_fmap in Hin as (x & [= -> ->] & Hx).
    split; [|done]. unfold HabitTracker.getActiveHabits in Hx.
    by apply list_elem_of_In, filter_In in Hx as [_ ?].
  - by rewrite length_map.
  - by rewrite flagged_length.
Qed.

(** X20.  Today's figures are in range: no more habits are completed than there
    are, and the completion rate of the day is a percentage between 0 and
    100, whatever the collection. *)
Theorem overall_stats_bounds (now : Z) (tr : HabitTracker.t) :
  let s := HabitTracker.getOverallStats now tr in
  0 <= HabitTracker.completedToday s <= HabitTracker.totalHabits s /\
  exists q, HabitTracker.completionRateToday s = Finite q /\
            (0 <= q <= 100)%Q.
Proof.
  intros s. unfold s, HabitTracker.getOverallStats. simpl.
  set (active := HabitTracker.getActiveHabits tr).
  pose proof (length_filter_le (isCompletedToday now) active) as Hle.
  split; [lia|].
  set (n := Z.of_nat (length active)) in *.
  set (k := Z.of_nat (length (List.filter (isCompletedToday now) active))) in *.
  destruct (Z.ltb_spec 0 n) as [Hn|Hn].
  - fold (percentage k n).
    destruct (percentage_finite k n ltac:(lia)) as (q & Hq & Hv).
    exists q. split; [done|]. rewrite Hv. split.
    + apply (ratio_nonneg k n 100); lia.
    + eapply Qle_trans; [apply (ratio_le_percent k n n); lia|].
      assert (inject_Z n / inject_Z n * 100 == 100)%Q as ->;
        [|apply Qle_refl].
      unfold Qdiv. rewrite Qmult_inv_r; [reflexivity|].
      unfold Qeq. simpl. lia.
  - exists 0%Q. split; [done|]. split; [apply Qle_refl|].
    unfold Qle. simpl. lia.
Qed.

(** X21.  Completing, at the current instant, an active habit that is not yet
    completed today returns true and leaves the habit active and completed
    today; [totalHabits] stays as it is and [completedToday] rises, by one
    at least and never above [totalHabits]. *)
Theorem completeHabit_stats (JSON_stringify : HabitTracker.snapshot -> string)
    (now : Z) (id : string) (habit : Habit.t)
    (tr : HabitTracker.t) (localStorage : gmap string string) :
  HabitTracker.getHabit id tr = Some habit ->
  isActive habit = true ->
  isCompletedToday now habit = false ->
  let result :=
    HabitTracker.completeHabit JSON_stringify now id now tr localStorage in
  let before := HabitTracker.getOverallStats now tr in
  let after := HabitTracker.getOverallStats now (fst (fst result)) in
  snd result = true /\
  (exists habit', HabitTracker.getHabit id (fst (fst result)) = Some habit' /\
                  isActive habit' = true /\
                  isCompletedToday now habit' = true) /\
  HabitTracker.totalHabits after = HabitTracker.totalHabits before /\
  HabitTracker.completedToday before + 1 <= HabitTracker.completedToday after
    <= HabitTracker.totalHabits after.
Proof.
  intros Hg Hact Hnot result before after.
  assert (snd result = true) as Hres.
  { unfold result, HabitTracker.completeHabit. rewrite Hg.
    by rewrite complete_fresh. }
  split; [done|].
  destruct (complete_frame now now habit) as (_ & Hact' & _).
  pose proof (complete_isCompletedToday now now habit) as Hdone.
  split.
  { exists (fst (complete now now habit)).
    unfold result. rewrite completeHabit_tracker, Hg.
    split; [|split; [congruence|done]].
    unfold HabitTracker.getHabit in *. simpl. by eapply Map_get_put. }
  unfold after, before, result. rewrite completeHabit_tracker, Hg.
  unfold HabitTracker.getHabit in Hg.
  destruct (Map_get_split _ _ _ Hg) as (m1 & m2 & Hm & Hput).
  set (habit' := fst (complete now now habit)) in *.
  unfold HabitTracker.getOverallStats, HabitTracker.getActiveHabits,
    HabitTracker.getAllHabits.
  simpl. rewrite Hput, Hm. rewrite !map_app. simpl.
  rewrite !List.filter_app. simpl. rewrite Hact', Hact. simpl.
  rewrite Hdone, Hnot, !length_app. simpl.
  pose proof (length_filter_le (isCompletedToday now)
                (List.filter isActive (map snd m1))).
  pose proof (length_filter_le (isCompletedToday now)
                (List.filter isActive (map snd m2))).
  split; lia.
Qed.

Lemma completeHabit_stats_witness :
  let tr := {| HabitTracker.habits := [("a", habitWithDays [3])];
               HabitTracker.categories := ["general"] |} in
  let now := 4 * msPerDay + 1 in
  HabitTracker.completedToday (HabitTracker.getOverallStats now tr) + 1
  <= HabitTracker.completedToday
       (HabitTracker.getOverallStats now
          (fst (fst (HabitTracker.completeHabit (fun _ => "text") now "a" now
                                                tr ∅)))).
Proof.
  intros tr now.
  pose proof (completeHabit_stats (fun _ => "text") now "a"
                (habitWithDays [3]) tr ∅) as Hstats.
  destruct Hstats as (_ & _ & _ & Hrise & _); [reflexivity..|].
  exact Hrise.
Defined.

(** * Properties of the callers in the interface *)

Section InterfaceFacts.

Lemma strictEq_percentage count days :
  0 < days ->
  strictEq (percentage count days) (of_Z 100) = (count =? days).
Proof.
  intros Hd. unfold percentage, div, mul, of_Z, strictEq.
  rewrite Qeq_bool_inject_Z. destruct (Z.eqb_spec days 0) as [|_]; [lia|].
  apply eq_true_iff_eq. rewrite Qeq_bool_iff, Z.eqb_eq.
  rewrite Qred_correct, Qred_correct.
  unfold Qeq, Qdiv, Qmult, Qinv. simpl.
  destruct days as [|p|p]; simpl; try lia.
Qed.

(** X22.  The progress bar of a habit card is always a number, as its divisor is
    at least 7; it lies between 0 and 100 for a habit whose streak is not
    negative and not above its longest streak. *)
Theorem progressPercentage_bounds (habit : Habit.t) :
  exists q,
    UIComponents.progressPercentage habit = Finite q /\
    (q == inject_Z (streak habit)
          / inject_Z (Z.max (longestStreak habit) 7) * 100)%Q /\
    (0 <= streak habit <= longestStreak habit -> (0 <= q <= 100)%Q).
Proof.
  unfold UIComponents.progressPercentage.
  set (d := Z.max (longestStreak habit) 7).
  assert (7 <= d) as Hd by (unfold d; lia).
  fold (percentage (streak habit) d).
  destruct (percentage_finite (streak habit) d ltac:(lia)) as (q & Hq & Hv).
  exists q. split; [done|]. split; [done|]. intros [H0 Hle].
  rewrite Hv. split.
  - apply (ratio_nonneg _ d 100); lia.
  - eapply Qle_trans; [apply (ratio_le_percent _ d d); lia|].
    assert (inject_Z d / inject_Z d * 100 == 100)%Q as ->; [|apply Qle_refl].
    unfold Qdiv. rewrite Qmult_inv_r; [reflexivity|].
    unfold Qeq. simpl. lia.
Qed.

Lemma progressPercentage_bounds_witness :
  exists q,
    UIComponents.progressPercentage (exampleHabit 3 4 [7; 8; 9] true)
    = Finite q /\ (0 <= q <= 100)%Q.
Proof.
  destruct (progressPercentage_bounds (exampleHabit 3 4 [7; 8; 9] true))
    as (q & Hq & _ & Hb).
  exists q. split; [done|]. apply Hb. split; vm_compute; discriminate.
Defined.

(** X23.  What [checkForMilestones] shows: the text of the table for a streak of
    7, 30, 100 or 365 and nothing for any other streak, so that the
    fall-back text of [showMilestoneMessage] is never shown from here; the
    perfect-week text exactly when 7 records lie in the 7-day period and the
    perfect-month text exactly when 30 lie in the 30-day period, so that the
    tests on the length of the whole log never decide. *)
Theorem checkForMilestones_shown (tza now : Z) (habit : Habit.t) :
  HabitTrackingInterface.checkForMilestones tza now habit
  = match HabitTrackingInterface.lookup (streak habit)
            HabitTrackingInterface.messages with
    | Some text => [text]
    | None => []
    end
    ++ (if Z.of_nat (length (completionsInPeriod tza now 7 habit)) =? 7
        then ["🎉 Perfect week! You're on fire!"] else [])
    ++ (if Z.of_nat (length (completionsInPeriod tza now 30 habit)) =? 30
        then ["🏆 Perfect month! You're a habit master!"] else []).
Proof.
  unfold HabitTrackingInterface.checkForMilestones.
  assert (Hlen : forall days,
             Z.of_nat (length (completionsInPeriod tza now days habit))
             <= Z.of_nat (length (completions habit))).
  { intros days. unfold completionsInPeriod.
    pose proof (length_filter_le
                  (fun c => (setDate tza now (getDate tza now - days)
                             <=? parseISODate (date c))
                            && (parseISODate (date c) <=? now))
                  (completions habit)). lia. }
  assert (Hrate : forall days, 0 < days ->
             strictEq (getCompletionRate tza now days habit) (of_Z 100)
             && (days <=? Z.of_nat (length (completions habit)))
             = (Z.of_nat (length (completionsInPeriod tza now days habit))
                =? days)).
  { intros days Hd. unfold getCompletionRate.
    fold (percentage
            (Z.of_nat (length (completionsInPeriod tza now days habit))) days).
    rewrite strictEq_percentage by done. specialize (Hlen days).
    destruct (Z.eqb_spec
                (Z.of_nat (length (completionsInPeriod tza now days habit)))
                days); [|done].
    simpl. apply Z.leb_le. lia. }
  rewrite !Hrate by lia. f_equal.
  unfold HabitTrackingInterface.showMilestoneMessage,
    HabitTrackingInterface.milestones, HabitTrackingInterface.messages.
  cbn [existsb HabitTrackingInterface.lookup].
  destruct (Z.eqb_spec (streak habit) 7) as [->|H7]; [done|].
  rewrite (proj2 (Z.eqb_neq 7 (streak habit))) by lia.
  destruct (Z.eqb_spec (streak habit) 30) as [->|H30]; [done|].
  rewrite (proj2 (Z.eqb_neq 30 (streak habit))) by lia.
  destruct (Z.eqb_spec (streak habit) 100) as [->|H100]; [done|].
  rewrite (proj2 (Z.eqb_neq 100 (streak habit))) by lia.
  destruct (Z.eqb_spec (streak habit) 365) as [->|H365]; [done|].
  by rewrite (proj2 (Z.eqb_neq 365 (streak habit))) by lia.
Qed.
End InterfaceFacts.

(** * Further properties of hydration *)

Section BootFacts.
Import Hydration.
Variable JSON_parse : string -> option value.
Variables (now : Z) (rnd : string).

(** X24.  First start: with no stored item, or an empty one, the text ['{}'] is
    parsed instead, and the tracker is empty with the seed categories. *)
Theorem first_boot :
  JSON_parse "{}" = Some (VObj []) ->
  Hydration.new JSON_parse now rnd None = Normal blankTracker /\
  Hydration.new JSON_parse now rnd (Some "") = Normal blankTracker.
Proof.
  intros Hp. unfold Hydration.new, loadFromStorage, loadBody. simpl.
  by rewrite Hp.
Qed.

Lemma Set_new_elem (cs : list value) (acc : list value) x :
  x ∈ fold_left (fun s c => Set_add c s) cs acc -> x ∈ acc \/ x ∈ cs.
Proof.
  revert acc. induction cs as [|c cs IH]; intros acc; simpl; [by left|].
  intros Hin. apply IH in Hin as [Hin|Hin]; [|right; by right].
  unfold Set_add in Hin. destruct (existsb _ acc); [by left|].
  apply elem_of_app in Hin as [Hin|Hin]; [by left|].
  apply list_elem_of_singleton in Hin as ->. right. by left.
Qed.

Lemma sameValueZero_eq (w v : value) :
  sameValueZero (Some w) (Some v) = true -> w = v.
Proof.
  destruct w, v; simpl; try done.
  - by intros ->%Bool.eqb_prop.
  - by intros ->%Z.eqb_eq.
  - by intros ->%String.eqb_eq.
Qed.

Lemma Set_add_known (c : value) (acc : list value) :
  existsb (fun w => sameValueZero (Some w) (Some c)) acc = true -> c ∈ acc.
Proof.
  intros (w & Hw & Heq)%existsb_exists.
  apply sameValueZero_eq in Heq as <-. by apply list_elem_of_In.
Qed.

Lemma Set_add_string (c : value) (acc : list value) :
  is_string c = true -> c ∈ acc ->
  existsb (fun w => sameValueZero (Some w) (Some c)) acc = true.
Proof.
  intros Hs Hin. apply existsb_exists. exists c.
  split; [by apply list_elem_of_In|].
  destruct c; try done. simpl. apply String.eqb_refl.
Qed.

(** [new Set] over an array: the set lists the entries of the array and
    nothing else, in the order of the array; every string is listed once. *)
Lemma Set_new_entries (cs acc : list value) :
  exists r,
    fold_left (fun s c => Set_add c s) cs acc = acc ++ r /\
    r `sublist_of` cs /\
    (forall x, x ∈ cs -> x ∈ acc ++ r) /\
    (NoDup (acc ++ cs) -> r = cs) /\
    (forallb is_string cs = true -> NoDup acc -> NoDup (acc ++ r)).
Proof.
  revert acc. induction cs as [|c cs IH]; intros acc; simpl.
  - exists []. rewrite app_nil_r. repeat split; try done.
    intros x Hx. inversion Hx.
  - unfold Set_add at 2.
    destruct (existsb _ acc) eqn:E.
    + apply Set_add_known in E.
      destruct (IH acc) as (r & Hfold & Hsub & Hin & Heq & Hnd).
      exists r. split; [done|]. split; [by apply sublist_cons|].
      split; [|split].
      * intros x [->|Hx]%elem_of_cons; [|by apply Hin].
        apply elem_of_app. by left.
      * intros (_ & Hdis & _)%NoDup_app. destruct (Hdis c E). by left.
      * intros [_ Hs]%andb_true_iff. by apply Hnd.
    + destruct (IH (acc ++ [c])) as (r & Hfold & Hsub & Hin & Heq & Hnd).
      exists (c :: r). rewrite Hfold, <- app_assoc. simpl.
      split; [done|]. split; [by apply sublist_skip|].
      split; [|split].
      * intros x [->|Hx]%elem_of_cons.
        -- apply elem_of_app. right. by left.
        -- specialize (Hin x Hx). by rewrite <- app_assoc in Hin.
      * intros Hd. f_equal. apply Heq. by rewrite <- app_assoc.
      * intros [Hc Hs]%andb_true_iff Hacc.
        change (acc ++ c :: r) with (acc ++ [c] ++ r). rewrite app_assoc.
        apply Hnd; [done|]. apply NoDup_app. split; [done|].
        split; [|apply NoDup_singleton].
        intros x Hx ->%list_elem_of_singleton.
        by rewrite (Set_add_string _ _ Hc Hx) in E.
Qed.

(** X25.  The stored categories replace the seed, they are not merged with
    it: with a stored array the tracker lists the entries of that array and
    nothing else, in the order of the array, every string once (the array
    itself when it has no duplicate, nothing when it is empty).  The seed
    stays when the stored value is falsy: absent, [null], [false], 0 or the
    empty text. *)
Theorem stored_categories_replace_seed (item : option string)
    (l : list (string * value)) :
  JSON_parse (textOf item) = Some (VObj l) ->
  truthy (assoc "habits" l) = false ->
  (forall cs, assoc "categories" l = Some (VArr cs) ->
     exists tr, Hydration.new JSON_parse now rnd item = Normal tr /\
                habits tr = [] /\
                (forall c, c ∈ categories tr <-> c ∈ cs) /\
                categories tr `sublist_of` cs /\
                (forallb is_string cs = true -> NoDup (categories tr)) /\
                (NoDup cs -> categories tr = cs)) /\
  (truthy (assoc "categories" l) = false ->
   Hydration.new JSON_parse now rnd item = Normal blankTracker).
Proof.
  intros Hp Hh. unfold Hydration.new, loadFromStorage, loadBody.
  rewrite Hp. simpl. rewrite Hh. split.
  - intros cs Hc. rewrite Hc. simpl. eexists. split; [reflexivity|].
    simpl. split; [done|].
    destruct (Set_new_entries cs []) as (r & -> & Hsub & Hin & Heq & Hnd).
    simpl in *. split; [|split; [done|split]].
    + intros c. split; [|by apply Hin].
      intros Hc'. by eapply elem_of_sublist.
    + intros Hs. apply Hnd; [done|apply NoDup_nil_2].
    + done.
  - intros Hc. by rewrite Hc.
Qed.
End BootFacts.

Lemma first_boot_witness :
  Hydration.new (fun _ => Some (Hydration.VObj [])) 0 "r" None
  = Hydration.Normal blankTracker.
Proof.
  apply (first_boot (fun _ => Some (Hydration.VObj [])) 0 "r").
  reflexivity.
Defined.

(** A stored list that names one category twice. *)
Lemma stored_categories_replace_seed_witness :
  let cs := [Hydration.VStr "work"; Hydration.VStr "health";
             Hydration.VStr "work"] in
  exists tr,
    Hydration.new (fun _ => Some (Hydration.VObj
                                    [("categories", Hydration.VArr cs)]))
                  0 "r" (Some "text")
    = Hydration.Normal tr /\
    Hydration.habits tr = [] /\
    (forall c, c ∈ Hydration.categories tr <-> c ∈ cs) /\
    Hydration.categories tr `sublist_of` cs /\
    NoDup (Hydration.categories tr).
Proof.
  intros cs.
  destruct (stored_categories_replace_seed
              (fun _ => Some (Hydration.VObj
                                [("categories", Hydration.VArr cs)]))
              0 "r" (Some "text") [("categories", Hydration.VArr cs)]
              eq_refl eq_refl) as [Hstored _].
  destruct (Hstored cs eq_refl) as (tr & Hnew & Hh & Hin & Hsub & Hnd & _).
  exists tr. repeat split; try done; try apply Hin. by apply Hnd.
Defined.

(** * Saving and loading *)

Section RoundTrip.
Import Hydration.
Variable dayText : Z -> string.
Variable toISOString : Z -> string.
Variable JSON_stringify : HabitTracker.snapshot -> string.
Variable JSON_parse : string -> option value.
Variables (now : Z) (rnd : string).

(** A record written by [toJSON] names all seventeen properties, so the
    constructor takes every one of them from the record. *)
Lemma Habit_fromJSON_record (h : Habit.t) :
  Habit.id h <> "" ->
  Habit_fromJSON now rnd
    (Some (VObj (Persistence.recordFields dayText toISOString (toJSON h))))
  = Some (Persistence.recordFields dayText toISOString (toJSON h)).
Proof.
  intros Hid. destruct h. simpl in *. unfold Habit_fromJSON. simpl.
  destruct (String.eqb_spec id0 ""); [done|]. done.
Qed.

Lemma entry_record (k : string) (h : Habit.t) :
  Habit.id h <> "" ->
  entry now rnd
    (VArr [VStr k;
           VObj (Persistence.recordFields dayText toISOString (toJSON h))])
  = Some (Some (VStr k),
          Persistence.recordFields dayText toISOString (toJSON h)).
Proof.
  intros Hid. unfold entry. cbn [iterate].
  change ([VStr k;
           VObj (Persistence.recordFields dayText toISOString (toJSON h))]
            !! 1%nat)
    with (Some (VObj (Persistence.recordFields dayText toISOString
                        (toJSON h)))).
  by rewrite Habit_fromJSON_record.
Qed.

Lemma Map_set_fresh_key k h (m : list (option value * habit)) :
  Forall (fun e => sameValueZero (fst e) k = false) m ->
  Hydration.Map_set k h m = m ++ [(k, h)].
Proof.
  induction 1 as [|[k' x] r Hx Hr IH]; simpl; [done|].
  simpl in Hx. by rewrite Hx, IH.
Qed.

Lemma Map_new_distinct (es : list (string * habit)) acc :
  NoDup (map fst acc ++ map fst es) ->
  fold_left (fun m e => Hydration.Map_set (fst e) (snd e) m)
            (map (fun e => (Some (VStr (fst e)), snd e)) es)
            (map (fun e => (Some (VStr (fst e)), snd e)) acc)
  = map (fun e => (Some (VStr (fst e)), snd e)) (acc ++ es).
Proof.
  revert acc. induction es as [|[k x] es IH]; intros acc Hnd; simpl.
  - by rewrite app_nil_r.
  - rewrite Map_set_fresh_key.
    + replace (map (fun e : string * habit => (Some (VStr (fst e)), snd e)) acc
               ++ [(Some (VStr k), x)])
        with (map (fun e : string * habit => (Some (VStr (fst e)), snd e))
                  (acc ++ [(k, x)]))
        by (by rewrite map_app).
      rewrite IH; [by rewrite <- app_assoc|].
      rewrite map_app. simpl. by rewrite <- app_assoc.
    + rewrite Forall_forall. intros e Hin.
      apply list_elem_of_fmap in Hin as ([k' x'] & -> & Hin). simpl.
      apply NoDup_app in Hnd as (_ & Hdis & _).
      destruct (String.eqb_spec k' k) as [->|]; [|done].
      destruct (Hdis k); [|by left].
      apply list_elem_of_fmap. by exists (k, x').
Qed.

Lemma Set_new_distinct (cs acc : list string) :
  NoDup (acc ++ cs) ->
  fold_left (fun s c => Set_add c s) (map VStr cs) (map VStr acc)
  = map VStr (acc ++ cs).
Proof.
  revert acc. induction cs as [|c cs IH]; intros acc Hnd; simpl.
  - by rewrite app_nil_r.
  - assert (Set_add (VStr c) (map VStr acc) = map VStr (acc ++ [c])) as ->.
    { unfold Set_add.
      destruct (existsb _ (map VStr acc)) eqn:E; [|by rewrite map_app].
      apply existsb_exists in E as (w & Hw & Heq).
      apply list_elem_of_In, list_elem_of_fmap in Hw as (c' & -> & Hc').
      simpl in Heq. apply String.eqb_eq in Heq as ->.
      apply NoDup_app in Hnd as (_ & Hdis & _).
      destruct (Hdis c Hc'). by left. }
    rewrite IH; [by rewrite <- app_assoc|]. by rewrite <- app_assoc.
Qed.

(** X26.  Saving and starting again brings the collection back: when the text
    written by [saveToStorage] parses to what [JSON.stringify] wrote, the
    new tracker holds the same ids in the same order, each with the
    seventeen properties of its habit as they were written (instants as
    ISO texts), and the same categories. *)
Theorem save_load_round_trip (tr : HabitTracker.t)
    (localStorage : gmap string string) :
  wellKeyed tr ->
  JSON_parse (textOf (Some (JSON_stringify (HabitTracker.snapshotOf tr))))
  = Some (Persistence.snapshotValue dayText toISOString
            (HabitTracker.snapshotOf tr)) ->
  let localStorage' :=
    HabitTracker.saveToStorage JSON_stringify tr localStorage in
  Hydration.new JSON_parse now rnd
    (localStorage' !! HabitTracker.storageKey)
  = Normal
      {| habits :=
           map (fun e =>
                  (Some (VStr (fst e)),
                   Persistence.recordFields dayText toISOString
                     (toJSON (snd e))))
               (HabitTracker.habits tr);
         categories := map VStr (HabitTracker.categories tr) |}.
Proof.
  intros (Hkeys & Hcats & Hids) Hparse localStorage'.
  unfold localStorage', HabitTracker.saveToStorage.
  rewrite lookup_insert_eq.
  unfold Hydration.new, loadFromStorage, loadBody. rewrite Hparse.
  unfold Persistence.snapshotValue, HabitTracker.snapshotOf. simpl.
  rewrite map_map. simpl.
  assert (mapM (entry now rnd)
            (map (fun e : string * Habit.t =>
                    VArr [VStr (fst e);
                          VObj (Persistence.recordFields dayText toISOString
                                  (toJSON (snd e)))])
                 (HabitTracker.habits tr))
          = Some (map (fun e =>
                         (Some (VStr (fst e)),
                          Persistence.recordFields dayText toISOString
                            (toJSON (snd e))))
                      (HabitTracker.habits tr))) as ->.
  { apply mapM_Some_2. apply Forall2_fmap. apply Forall_Forall2_diag.
    eapply Forall_impl; [exact Hids|]. intros [k h] [Hk Hne].
    cbn [fst snd] in *. apply entry_record. by rewrite <- Hk. }
  simpl. unfold Set_new. simpl.
  pose proof (Map_new_distinct
                (map (fun e => (fst e,
                                Persistence.recordFields dayText toISOString
                                  (toJSON (snd e))))
                     (HabitTracker.habits tr)) []) as Hmap.
  simpl in Hmap. rewrite !map_map in Hmap. simpl in Hmap.
  specialize (Hmap Hkeys).
  pose proof (Set_new_distinct (HabitTracker.categories tr) [] Hcats) as Hset.
  simpl in Hset.
  unfold Map_new, set_categories, set_habits. simpl. f_equal.
  f_equal; [exact Hmap|exact Hset].
Qed.
End RoundTrip.

Lemma save_load_round_trip_witness :
  let tr := fst (run (fun _ => "text")
                     [AddHabit 0 "r" no_config; AddCategory "health"]
                     ({| HabitTracker.habits := [];
                         HabitTracker.categories := [] |}, ∅)) in
  let value :=
    Persistence.snapshotValue (fun _ => "1970-01-01")
      (fun _ => "1970-01-01T00:00:00.000Z") (HabitTracker.snapshotOf tr) in
  Hydration.new (fun _ => Some value) 9 "s"
    (HabitTracker.saveToStorage (fun _ => "text") tr ∅
       !! HabitTracker.storageKey)
  = Hydration.Normal
      {| Hydration.habits :=
           map (fun e =>
                  (Some (Hydration.VStr (fst e)),
                   Persistence.recordFields (fun _ => "1970-01-01")
                     (fun _ => "1970-01-01T00:00:00.000Z") (toJSON (snd e))))
               (HabitTracker.habits tr);
         Hydration.categories :=
           map Hydration.VStr (HabitTracker.categories tr) |}.
Proof.
  intros tr value.
  apply (save_load_round_trip (fun _ => "1970-01-01")
           (fun _ => "1970-01-01T00:00:00.000Z") (fun _ => "text")
           (fun _ => Some value) 9 "s" tr ∅).
  - apply (run_wellKeyed (fun _ => "text")).
    repeat split; constructor.
  - reflexivity.
Defined.

(** * Examples for the properties above *)

Lemma streak_bounds_witness :
  1 <= streak (updateStreak (4 * msPerDay + 1) (habitWithDays [1; 3])).
Proof.
  pose proof (streak_bounds (4 * msPerDay + 1) (habitWithDays [1; 3]))
    as [_ Hrecent].
  refine (proj2 (Hrecent (Build_completion 3 (parseISODate 3) 1) _ _) _).
  - vm_compute. do 2 constructor.
  - intros c Hc. vm_compute in Hc.
    repeat (apply elem_of_cons in Hc as [->|Hc]; [vm_compute; discriminate|]).
    inversion Hc.
  - vm_compute. discriminate.
Defined.

